(** * tech-exam: authentication, authorization gate and owner-scoped records

    A shallow embedding of the request-handling core of the FastAPI
    application under [app/]:

    - [app/services/user_service.py], [app/services/item_service.py]
    - [app/api/deps.py]
    - [app/api/routes/auth.py], [app/api/routes/items.py]
    - the two tables of [app/db/models] with their declared constraints.

    The relational store is a pair of row lists; a query is a filter over the
    rows, a commit checks the declared constraints.  Python exceptions are the
    [Raise] branch of [result].  The third-party libraries and the functions
    the handlers import from [app/core/security.py] are the fields of the
    class [Platform]; the general theorems hold for every platform. *)

From Stdlib Require Import List String Ascii Bool ZArith NArith Lia.
From Stdlib Require Import Permutation Sorted.
Import ListNotations.

Local Open Scope string_scope.
Local Open Scope list_scope.

(* ------------------------------------------------------------------ *)
(** ** Exceptions and results *)

(** The exceptions the handlers raise or let through. *)
Inductive exn : Type :=
| HTTPException (status_code : Z) (detail : string)
| JWTError (msg : string)        (* jose.JWTError and its subclasses *)
| ValidationError (msg : string) (* pydantic *)
| ValueError (msg : string)
| IntegrityError (msg : string). (* sqlalchemy.exc, raised by a commit *)

Inductive result (A : Type) : Type :=
| Ok (a : A)
| Raise (e : exn).
Arguments Ok {A} a.
Arguments Raise {A} e.

Definition bind {A B : Type} (r : result A) (k : A -> result B) : result B :=
  match r with
  | Ok a => k a
  | Raise e => Raise e
  end.

Notation "x <- r ;; k" := (bind r (fun x => k))
  (at level 61, r at next level, right associativity).

(** [status.HTTP_*] of Starlette. *)
Definition HTTP_200_OK : Z := 200.
Definition HTTP_201_CREATED : Z := 201.
Definition HTTP_204_NO_CONTENT : Z := 204.
Definition HTTP_400_BAD_REQUEST : Z := 400.
Definition HTTP_401_UNAUTHORIZED : Z := 401.
Definition HTTP_403_FORBIDDEN : Z := 403.
Definition HTTP_404_NOT_FOUND : Z := 404.
Definition HTTP_500_INTERNAL_SERVER_ERROR : Z := 500.

(** What the client sees: the body of a successful handler under the status
    code of its route decorator, the status and detail of an
    [HTTPException], or the framework's answer to any other exception. *)
Inductive Response (A : Type) : Type :=
| Success (status_code : Z) (body : A)
| Failure (status_code : Z) (detail : string).
Arguments Success {A} status_code body.
Arguments Failure {A} status_code detail.

Definition respond {A : Type} (status_code : Z) (r : result A) : Response A :=
  match r with
  | Ok a => Success status_code a
  | Raise (HTTPException code detail) => Failure code detail
  | Raise _ => Failure HTTP_500_INTERNAL_SERVER_ERROR "Internal Server Error"
  end.

(* ------------------------------------------------------------------ *)
(** ** Data model *)

(** [uuid.UUID]: a 128-bit identifier. *)
Definition UUID : Type := N.

(** [app/db/models/user.py] *)
Module User.
Record t : Type := Build {
  id : UUID;
  email : string;
  full_name : option string;
  hashed_password : string;
  is_active : bool;
  is_superuser : bool;
  created_at : Z;
  updated_at : Z
}.
End User.

(** [app/db/models/item.py] *)
Module Item.
Record t : Type := Build {
  id : UUID;
  title : string;
  description : option string;
  owner_id : UUID;
  created_at : Z;
  updated_at : Z
}.
End Item.

(** The store behind a [Session]: the rows of [users] and of [items], in
    insertion order. *)
Record Session : Type := mkSession {
  users : list User.t;
  items : list Item.t
}.

(** [app/schemas/user.py], [app/schemas/auth.py], [app/schemas/item.py]: the
    request bodies, as the handlers receive them (after pydantic accepted
    them). *)
Record UserCreate : Type := mkUserCreate {
  uc_email : string;
  uc_full_name : option string;
  uc_password : string
}.

Record UserUpdate : Type := mkUserUpdate {
  uu_full_name : option string;
  uu_password : option string
}.

Record LoginRequest : Type := mkLoginRequest {
  lr_email : string;
  lr_password : string
}.

Record TokenPayload : Type := mkTokenPayload {
  sub : option string;
  exp : option Z
}.

Record TokenResponse : Type := mkTokenResponse {
  access_token : string;
  token_type : string;
  expires_in : Z
}.

Record ItemCreate : Type := mkItemCreate {
  ic_title : string;
  ic_description : option string
}.

Record ItemUpdate : Type := mkItemUpdate {
  iu_title : option string;
  iu_description : option string
}.

(** [app/core/config.py]: the fields the handlers read. *)
Record Settings : Type := mkSettings {
  secret_key : string;
  algorithm : string;
  access_token_expire_minutes : Z
}.

Definition get_settings : Settings :=
  {| secret_key := "change-me";
     algorithm := "HS256";
     access_token_expire_minutes := 30 |}.

(* ------------------------------------------------------------------ *)
(** ** The platform *)

(** What the handlers call and do not define: [str.lower], [uuid.UUID] and
    [str] on it, jose's [jwt.decode] (which reads the clock, the first
    argument), pydantic's constructor of [TokenPayload], and the three
    functions of [app/core/security.py].  A password hash is salted, so
    [get_password_hash] takes the salt it draws as its first argument. *)
Class Platform : Type := {
  dict : Type;
  str_lower : string -> string;
  UUID_of_str : string -> result UUID;
  str_of_UUID : UUID -> string;
  jwt_decode : Z -> string -> string -> list string -> result dict;
  TokenPayload_of_dict : dict -> result TokenPayload;
  get_password_hash : string -> string -> string;
  verify_password : string -> string -> bool;
  create_access_token : Z -> string -> Z -> string
}.

Section Application.
Context `{Platform}.

(* ------------------------------------------------------------------ *)
(** ** The store: queries and commits *)

(** The [WHERE] clauses of the services. *)
Definition where_user_id (user_id : UUID) (u : User.t) : bool :=
  N.eqb (User.id u) user_id.

Definition where_user_email (email : string) (u : User.t) : bool :=
  String.eqb (User.email u) email.

Definition where_item_owner (owner_id : UUID) (i : Item.t) : bool :=
  N.eqb (Item.owner_id i) owner_id.

Definition where_item_owner_and_id (owner_id item_id : UUID) (i : Item.t) : bool :=
  N.eqb (Item.owner_id i) owner_id && N.eqb (Item.id i) item_id.

(** [ORDER BY created_at DESC]: insertion into a list that is already in
    descending order.  Rows with equal timestamps keep their table order (SQL
    leaves the order of ties open). *)
Fixpoint insert_desc (x : Item.t) (l : list Item.t) : list Item.t :=
  match l with
  | [] => [x]
  | y :: l' =>
      if Z.leb (Item.created_at y) (Item.created_at x)
      then x :: y :: l'
      else y :: insert_desc x l'
  end.

Definition order_by_created_at_desc (l : list Item.t) : list Item.t :=
  fold_right insert_desc [] l.

(** Committing an [INSERT] into [users]: the primary key and the unique
    index [ix_users_email] are checked by the store. *)
Definition insert_user (db : Session) (user : User.t) : result Session :=
  if existsb (where_user_id (User.id user)) (users db)
  then Raise (IntegrityError "users_pkey")
  else if existsb (where_user_email (User.email user)) (users db)
  then Raise (IntegrityError "ix_users_email")
  else Ok {| users := users db ++ [user]; items := items db |}.

(** Committing an [INSERT] into [items]: the primary key and the foreign key
    [items.owner_id -> users.id] are checked by the store. *)
Definition insert_item (db : Session) (item : Item.t) : result Session :=
  if existsb (fun i => N.eqb (Item.id i) (Item.id item)) (items db)
  then Raise (IntegrityError "items_pkey")
  else if negb (existsb (where_user_id (Item.owner_id item)) (users db))
  then Raise (IntegrityError "items_owner_id_fkey")
  else Ok {| users := users db; items := items db ++ [item] |}.

(** Committing an [UPDATE] of one row, found by its primary key. *)
Definition replace_user (db : Session) (user : User.t) : Session :=
  {| users := map (fun u => if N.eqb (User.id u) (User.id user) then user else u)
                  (users db);
     items := items db |}.

Definition replace_item (db : Session) (item : Item.t) : Session :=
  {| users := users db;
     items := map (fun i => if N.eqb (Item.id i) (Item.id item) then item else i)
                  (items db) |}.

(** Committing a [DELETE] of one row, found by its primary key. *)
Definition remove_item (db : Session) (item : Item.t) : Session :=
  {| users := users db;
     items := filter (fun i => negb (N.eqb (Item.id i) (Item.id item))) (items db) |}.

Definition option_eqb (a b : option string) : bool :=
  match a, b with
  | Some x, Some y => String.eqb x y
  | None, None => true
  | _, _ => false
  end.

(* ------------------------------------------------------------------ *)
(** ** [app/services/user_service.py] *)

Definition list_users (db : Session) : list User.t := users db.

Definition get_user (db : Session) (user_id : UUID) : option User.t :=
  find (where_user_id user_id) (users db).

Definition get_user_by_email (db : Session) (email : string) : option User.t :=
  find (where_user_email (str_lower email)) (users db).

(** [new_id] is the draw of [uuid.uuid4], [salt] the salt the hasher draws,
    [now] the store's clock.  The result is the new row together with the
    store after the commit; a failed commit leaves the store as it was. *)
Definition create_user (db : Session) (user_in : UserCreate) (is_superuser : bool)
    (new_id : UUID) (salt : string) (now : Z) : result User.t * Session :=
  let user :=
    {| User.id := new_id;
       User.email := str_lower (uc_email user_in);
       User.full_name := uc_full_name user_in;
       User.hashed_password := get_password_hash salt (uc_password user_in);
       User.is_active := true;
       User.is_superuser := is_superuser;
       User.created_at := now;
       User.updated_at := now |} in
  match insert_user db user with
  | Ok db' => (Ok user, db')
  | Raise e => (Raise e, db)
  end.

(** The store sets [updated_at] when the flush finds a changed column. *)
Definition update_user (db : Session) (user : User.t) (user_in : UserUpdate)
    (salt : string) (now : Z) : User.t * Session :=
  let full_name' :=
    match uu_full_name user_in with
    | Some n => Some n
    | None => User.full_name user
    end in
  let hashed_password' :=
    match uu_password user_in with
    | Some p => get_password_hash salt p
    | None => User.hashed_password user
    end in
  let changed :=
    negb (option_eqb full_name' (User.full_name user)
          && String.eqb hashed_password' (User.hashed_password user)) in
  let user' :=
    {| User.id := User.id user;
       User.email := User.email user;
       User.full_name := full_name';
       User.hashed_password := hashed_password';
       User.is_active := User.is_active user;
       User.is_superuser := User.is_superuser user;
       User.created_at := User.created_at user;
       User.updated_at := if changed then now else User.updated_at user |} in
  (user', replace_user db user').

Definition authenticate_user (db : Session) (email password : string) : option User.t :=
  match get_user_by_email db (str_lower email) with
  | None => None
  | Some user =>
      if negb (verify_password password (User.hashed_password user))
      then None
      else Some user
  end.

(* ------------------------------------------------------------------ *)
(** ** [app/services/item_service.py] *)

Definition list_items (db : Session) (owner_id : UUID) : list Item.t :=
  order_by_created_at_desc (filter (where_item_owner owner_id) (items db)).

Definition get_item (db : Session) (owner_id item_id : UUID) : option Item.t :=
  find (where_item_owner_and_id owner_id item_id) (items db).

Definition create_item (db : Session) (owner_id : UUID) (item_in : ItemCreate)
    (new_id : UUID) (now : Z) : result Item.t * Session :=
  let item :=
    {| Item.id := new_id;
       Item.title := ic_title item_in;
       Item.description := ic_description item_in;
       Item.owner_id := owner_id;
       Item.created_at := now;
       Item.updated_at := now |} in
  match insert_item db item with
  | Ok db' => (Ok item, db')
  | Raise e => (Raise e, db)
  end.

Definition update_item (db : Session) (item : Item.t) (item_in : ItemUpdate)
    (now : Z) : Item.t * Session :=
  let title' :=
    match iu_title item_in with
    | Some t => t
    | None => Item.title item
    end in
  let description' :=
    match iu_description item_in with
    | Some d => Some d
    | None => Item.description item
    end in
  let changed :=
    negb (String.eqb title' (Item.title item)
          && option_eqb description' (Item.description item)) in
  let item' :=
    {| Item.id := Item.id item;
       Item.title := title';
       Item.description := description';
       Item.owner_id := Item.owner_id item;
       Item.created_at := Item.created_at item;
       Item.updated_at := if changed then now else Item.updated_at item |} in
  (item', replace_item db item').

Definition delete_item (db : Session) (item : Item.t) : Session :=
  remove_item db item.

(* ------------------------------------------------------------------ *)
(** ** [app/api/deps.py] *)

(** [now] is the clock [jwt.decode] reads.  The [try] block holds the two
    calls [jwt.decode] and the construction of [TokenPayload] from the
    decoded payload; its handler catches
    [JWTError] only, every other exception propagates.  The conversion
    [UUID(token_data.sub)] stands outside the [try] block. *)
Definition get_current_user (now : Z) (token : string) (db : Session) : result User.t :=
  let settings := get_settings in
  match (payload <- jwt_decode now token (secret_key settings) [algorithm settings];;
         TokenPayload_of_dict payload) with
  | Raise (JWTError _) =>
      Raise (HTTPException HTTP_401_UNAUTHORIZED "Could not validate credentials")
  | Raise exc => Raise exc
  | Ok token_data =>
      match sub token_data with
      | None | Some "" =>
          Raise (HTTPException HTTP_401_UNAUTHORIZED "Could not validate credentials")
      | Some s =>
          user_id <- UUID_of_str s;;
          match get_user db user_id with
          | None => Raise (HTTPException HTTP_401_UNAUTHORIZED "User not found")
          | Some user => Ok user
          end
      end
  end.

Definition get_current_active_user (current_user : User.t) : result User.t :=
  if negb (User.is_active current_user)
  then Raise (HTTPException HTTP_400_BAD_REQUEST "Inactive user")
  else Ok current_user.

Definition get_current_active_superuser (current_user : User.t) : result User.t :=
  if negb (User.is_superuser current_user)
  then Raise (HTTPException HTTP_403_FORBIDDEN "Insufficient privileges")
  else Ok current_user.

(** The dependency chains, as [Depends] resolves them: both
    [get_current_active_user] and [get_current_active_superuser] declare
    [current_user = Depends(get_current_user)]. *)
Definition Depends_get_current_active_user (now : Z) (token : string) (db : Session)
    : result User.t :=
  current_user <- get_current_user now token db;;
  get_current_active_user current_user.

Definition Depends_get_current_active_superuser (now : Z) (token : string) (db : Session)
    : result User.t :=
  current_user <- get_current_user now token db;;
  get_current_active_superuser current_user.

(* ------------------------------------------------------------------ *)
(** ** [app/api/routes/auth.py] *)

(** [POST /auth/register], status code 201 on success. *)
Definition register_user (user_in : UserCreate) (db : Session)
    (new_id : UUID) (salt : string) (now : Z) : result User.t * Session :=
  match get_user_by_email db (uc_email user_in) with
  | Some _ => (Raise (HTTPException HTTP_400_BAD_REQUEST "Email already registered"), db)
  | None => create_user db user_in false new_id salt now
  end.

(** [POST /auth/login]. *)
Definition login (login_request : LoginRequest) (db : Session) (now : Z)
    : result TokenResponse :=
  match authenticate_user db (lr_email login_request) (lr_password login_request) with
  | None => Raise (HTTPException HTTP_401_UNAUTHORIZED "Incorrect email or password")
  | Some user =>
      let settings := get_settings in
      let expires_delta := (access_token_expire_minutes settings * 60)%Z in
      let access_token :=
        create_access_token now (str_of_UUID (User.id user)) expires_delta in
      Ok {| access_token := access_token;
            token_type := "bearer";
            expires_in := expires_delta |}
  end.

(** [GET /auth/me]; [current_user] comes from [get_current_active_user]. *)
Definition read_current_user (current_user : User.t) : User.t := current_user.

(* ------------------------------------------------------------------ *)
(** ** [app/api/routes/items.py]

    Every handler receives [current_user] from [get_current_active_user]. *)

Definition list_my_items (db : Session) (current_user : User.t) : list Item.t :=
  list_items db (User.id current_user).

(** [POST /items], status code 201 on success. *)
Definition create_item_for_user (item_in : ItemCreate) (db : Session)
    (current_user : User.t) (new_id : UUID) (now : Z) : result Item.t * Session :=
  create_item db (User.id current_user) item_in new_id now.

Definition get_item_by_id (item_id : UUID) (db : Session) (current_user : User.t)
    : result Item.t :=
  match get_item db (User.id current_user) item_id with
  | None => Raise (HTTPException HTTP_404_NOT_FOUND "Item not found")
  | Some item => Ok item
  end.

Definition update_item_by_id (item_id : UUID) (item_in : ItemUpdate) (db : Session)
    (current_user : User.t) (now : Z) : result Item.t * Session :=
  match get_item db (User.id current_user) item_id with
  | None => (Raise (HTTPException HTTP_404_NOT_FOUND "Item not found"), db)
  | Some item =>
      let (updated_item, db') := update_item db item item_in now in
      (Ok updated_item, db')
  end.

(** [DELETE /items/{item_id}], status code 204 on success. *)
Definition delete_item_by_id (item_id : UUID) (db : Session) (current_user : User.t)
    : result unit * Session :=
  match get_item db (User.id current_user) item_id with
  | None => (Raise (HTTPException HTTP_404_NOT_FOUND "Item not found"), db)
  | Some item => (Ok tt, delete_item db item)
  end.

End Application.

(* ------------------------------------------------------------------ *)
(** ** A reference platform

    An executable instance of [Platform], on which the handlers can be run.
    Strings are byte strings; [lower] folds the ASCII letters. *)

Module Reference.

Definition ascii_lower (c : ascii) : ascii :=
  let n := nat_of_ascii c in
  if Nat.leb 65 n && Nat.leb n 90 then ascii_of_nat (n + 32) else c.

Fixpoint lower (s : string) : string :=
  match s with
  | EmptyString => EmptyString
  | String c s' => String (ascii_lower c) (lower s')
  end.

(** [s.replace(pat, '')]: [skip] counts the characters of a match still to
    be dropped. *)
Fixpoint remove_all_from (pat : string) (skip : nat) (s : string) : string :=
  match s with
  | EmptyString => EmptyString
  | String c s' =>
      match skip with
      | S k => remove_all_from pat k s'
      | O =>
          if String.prefix pat s && negb (String.eqb pat "")
          then remove_all_from pat (String.length pat - 1) s'
          else String c (remove_all_from pat 0 s')
      end
  end.

Definition remove_all (pat s : string) : string := remove_all_from pat 0 s.

Definition is_brace (c : ascii) : bool :=
  Ascii.eqb c "{"%char || Ascii.eqb c "}"%char.

Fixpoint lstrip_braces (s : string) : string :=
  match s with
  | String c s' => if is_brace c then lstrip_braces s' else s
  | EmptyString => EmptyString
  end.

(** Drops the trailing braces; the result is empty when [s] holds braces
    only. *)
Fixpoint rstrip_braces (s : string) : string :=
  match s with
  | EmptyString => EmptyString
  | String c s' =>
      match rstrip_braces s' with
      | EmptyString => if is_brace c then EmptyString else String c EmptyString
      | r => String c r
      end
  end.

Definition strip_braces (s : string) : string := rstrip_braces (lstrip_braces s).

Definition hex_value (c : ascii) : option N :=
  let n := N_of_ascii c in
  if N.leb 48 n && N.leb n 57 then Some (n - 48)%N
  else if N.leb 97 n && N.leb n 102 then Some (n - 87)%N
  else if N.leb 65 n && N.leb n 70 then Some (n - 55)%N
  else None.

Fixpoint int_base16 (acc : N) (s : string) : option N :=
  match s with
  | EmptyString => Some acc
  | String c s' =>
      match hex_value c with
      | Some d => int_base16 (acc * 16 + d)%N s'
      | None => None
      end
  end.

(** [uuid.UUID(hex)]: the prefixes [urn:] and [uuid:] are removed, then the
    surrounding braces, then the hyphens; what is left must be 32
    characters long and a base-16 numeral. *)
Definition UUID_of_str (s : string) : result UUID :=
  let hex := remove_all "uuid:" (remove_all "urn:" s) in
  let hex := remove_all "-" (strip_braces hex) in
  if negb (Nat.eqb (String.length hex) 32)
  then Raise (ValueError "badly formed hexadecimal UUID string")
  else match int_base16 0 hex with
       | Some n => Ok n
       | None => Raise (ValueError "invalid literal for int() with base 16")
       end.

Definition hex_digit (d : N) : ascii :=
  if N.ltb d 10 then ascii_of_N (48 + d) else ascii_of_N (87 + d).

(** The [width] low hexadecimal digits of [n], most significant first. *)
Fixpoint hex_digits (width : nat) (n : N) (acc : string) : string :=
  match width with
  | O => acc
  | S w => hex_digits w (n / 16)%N (String (hex_digit (n mod 16)%N) acc)
  end.

(** [str(uuid)]: the 8-4-4-4-12 form. *)
Definition str_of_UUID (u : UUID) : string :=
  let h := hex_digits 32 u EmptyString in
  (substring 0 8 h ++ "-" ++ substring 8 4 h ++ "-" ++ substring 12 4 h ++ "-"
   ++ substring 16 4 h ++ "-" ++ substring 20 12 h)%string.

(** Splits at the first full stop. *)
Fixpoint split_dot (s : string) : option (string * string) :=
  match s with
  | EmptyString => None
  | String c s' =>
      if Ascii.eqb c "."%char then Some (EmptyString, s')
      else match split_dot s' with
           | Some (a, b) => Some (String c a, b)
           | None => None
           end
  end.

Fixpoint decimal (acc : N) (s : string) : option N :=
  match s with
  | EmptyString => Some acc
  | String c s' =>
      let n := N_of_ascii c in
      if N.leb 48 n && N.leb n 57 then decimal (acc * 10 + (n - 48))%N s' else None
  end.

Fixpoint digits_of (fuel : nat) (n : N) (acc : string) : string :=
  match fuel with
  | O => acc
  | S f =>
      let acc' := String (ascii_of_N (48 + n mod 10)) acc in
      if N.ltb n 10 then acc' else digits_of f (n / 10)%N acc'
  end.

Definition str_of_N (n : N) : string := digits_of (S (N.to_nat (N.log2 n))) n EmptyString.

(** Modelled from the spec: the token codec of [app/core/security.py] and
    of jose, which the sources import and do not contain.  A token encodes
    the subject and the expiry [now + ttl] and is bound to the secret key;
    decoding fails on a string of another shape, on another key and on an
    expiry in the past.  The three parts are written one after the other,
    the key in place of a signature. *)
Definition create_access_token (now : Z) (subject : string) (expires_delta : Z)
    : string :=
  (secret_key get_settings ++ "." ++ str_of_N (Z.to_N (now + expires_delta)) ++ "."
   ++ subject)%string.

Definition jwt_decode (now : Z) (token key : string) (algorithms : list string)
    : result TokenPayload :=
  match split_dot token with
  | None => Raise (JWTError "Not enough segments")
  | Some (signature, rest) =>
      match split_dot rest with
      | None => Raise (JWTError "Not enough segments")
      | Some (expiry, subject) =>
          if negb (String.eqb signature key)
          then Raise (JWTError "Signature verification failed.")
          else match decimal 0 expiry with
               | None =>
                   Raise (JWTError "Expiration Time claim (exp) must be an integer.")
               | Some e =>
                   if Z.ltb (Z.of_N e) now
                   then Raise (JWTError "Signature has expired.")
                   else Ok {| sub := Some subject; exp := Some (Z.of_N e) |}
               end
      end
  end.

(** Modelled from the spec: the password hasher of [app/core/security.py].
    A digest names its scheme and its salt; verification reads both back
    from the digest and answers [false] on a digest of another shape.  The
    digest of this instance ends with the plaintext itself. *)
Definition get_password_hash (salt password : string) : string :=
  ("$ref$" ++ salt ++ "$" ++ password)%string.

Fixpoint after_dollar (s : string) : option string :=
  match s with
  | EmptyString => None
  | String c s' => if Ascii.eqb c "$"%char then Some s' else after_dollar s'
  end.

Definition verify_password (password digest : string) : bool :=
  if String.prefix "$ref$" digest
  then match after_dollar (substring 5 (String.length digest - 5) digest) with
       | Some h => String.eqb h password
       | None => false
       end
  else false.

#[export] Instance platform : Platform :=
  Build_Platform TokenPayload lower UUID_of_str str_of_UUID jwt_decode
    (fun payload => Ok payload) get_password_hash verify_password
    create_access_token.

End Reference.

(* ------------------------------------------------------------------ *)
(** ** Sample data *)

Module Sample.
Import Reference.

Definition alice_id : UUID := 1311768467463790320%N.
Definition bob_id : UUID := 81985529216486895%N.
Definition carol_id : UUID := 3735928559%N.

Definition alice : User.t :=
  {| User.id := alice_id;
     User.email := "alice@example.com";
     User.full_name := Some "Alice";
     User.hashed_password := get_password_hash "na" "pw12345678";
     User.is_active := true;
     User.is_superuser := false;
     User.created_at := 100;
     User.updated_at := 100 |}.

Definition bob : User.t :=
  {| User.id := bob_id;
     User.email := "bob@example.com";
     User.full_name := None;
     User.hashed_password := get_password_hash "cl" "hunter2hunter2";
     User.is_active := true;
     User.is_superuser := false;
     User.created_at := 110;
     User.updated_at := 110 |}.

(** Two accounts that were switched off. *)
Definition dormant_admin : User.t :=
  {| User.id := carol_id;
     User.email := "carol@example.com";
     User.full_name := None;
     User.hashed_password := get_password_hash "mg" "correct horse";
     User.is_active := false;
     User.is_superuser := true;
     User.created_at := 120;
     User.updated_at := 500 |}.

Definition dormant_user : User.t :=
  {| User.id := bob_id;
     User.email := "bob@example.com";
     User.full_name := None;
     User.hashed_password := get_password_hash "cl" "hunter2hunter2";
     User.is_active := false;
     User.is_superuser := false;
     User.created_at := 110;
     User.updated_at := 510 |}.

Definition groceries : Item.t :=
  {| Item.id := 7%N;
     Item.title := "groceries";
     Item.description := None;
     Item.owner_id := alice_id;
     Item.created_at := 200;
     Item.updated_at := 200 |}.

Definition laundry : Item.t :=
  {| Item.id := 8%N;
     Item.title := "laundry";
     Item.description := Some "whites only";
     Item.owner_id := bob_id;
     Item.created_at := 210;
     Item.updated_at := 210 |}.

Definition taxes : Item.t :=
  {| Item.id := 9%N;
     Item.title := "taxes";
     Item.description := None;
     Item.owner_id := alice_id;
     Item.created_at := 220;
     Item.updated_at := 220 |}.

Definition store : Session :=
  {| users := [alice; bob]; items := [groceries; laundry; taxes] |}.

(** The store after bob's account was deleted (his rows cascade). *)
Definition store_without_bob : Session :=
  {| users := [alice]; items := [groceries; taxes] |}.

Definition store_with_dormant : Session :=
  {| users := [alice; dormant_user; dormant_admin]; items := [groceries] |}.

(** Tokens minted at time 1000 for half an hour. *)
Definition bob_token : string :=
  create_access_token 1000 (str_of_UUID bob_id) 1800.

Definition carol_token : string :=
  create_access_token 1000 (str_of_UUID carol_id) 1800.

(** A token under the right key whose subject is no UUID. *)
Definition odd_token : string :=
  create_access_token 1000 "not-a-uuid" 1800.

Definition dave_in : UserCreate :=
  {| uc_email := "Dave@Example.COM";
     uc_full_name := None;
     uc_password := "pw12345678" |}.

Definition rename : ItemUpdate :=
  {| iu_title := Some "food"; iu_description := None |}.
End Sample.

(* ------------------------------------------------------------------ *)
(** ** Invariants of the store *)

(** The primary keys of the two tables. *)
Definition users_pkey (db : Session) : Prop := NoDup (map User.id (users db)).
Definition items_pkey (db : Session) : Prop := NoDup (map Item.id (items db)).

Section Normalisation.
Context `{Platform}.

(** [str.lower] leaves its own results alone on [s]. *)
Definition lower_stable (s : string) : Prop :=
  str_lower (str_lower s) = str_lower s.

(** Every stored email is in lower case. *)
Definition emails_normalized (db : Session) : Prop :=
  forall u, In u (users db) -> str_lower (User.email u) = User.email u.

(** Two emails are the same up to letter case. *)
Definition same_email (a b : string) : Prop := str_lower a = str_lower b.

(** What the [try] block of [get_current_user] leaves in [token_data]. *)
Definition token_data_of (now : Z) (token : string) : result TokenPayload :=
  payload <- jwt_decode now token (secret_key get_settings) [algorithm get_settings];;
  TokenPayload_of_dict payload.

Definition credentials_error : exn :=
  HTTPException HTTP_401_UNAUTHORIZED "Could not validate credentials".

End Normalisation.

(** Newest first. *)
Definition newer_or_equal (a b : Item.t) : Prop :=
  (Item.created_at b <= Item.created_at a)%Z.

(** The unique index on [users.email]. *)
Definition users_email_unique (db : Session) : Prop :=
  NoDup (map User.email (users db)).

(** The foreign key of [items]: every record has a stored owner. *)
Definition items_fkey (db : Session) : Prop :=
  forall i, In i (items db) ->
            exists u, In u (users db) /\ User.id u = Item.owner_id i.

(** A request body of [PUT /items/{item_id}] that sets no field. *)
Definition empty_item_update : ItemUpdate :=
  {| iu_title := None; iu_description := None |}.

(* ================================================================== *)
(** * Properties *)

(** ** Lists and queries *)

Lemma find_none_iff {A : Type} (f : A -> bool) (l : list A) :
  find f l = None <-> (forall x, In x l -> f x = false).
Proof.
  split.
  - intros Hnone x Hin. exact (find_none f l Hnone x Hin).
  - induction l as [| y l IH]; intros Hall; simpl.
    + reflexivity.
    + rewrite (Hall y (or_introl eq_refl)). apply IH.
      intros x Hin. apply Hall. now right.
Qed.

Lemma existsb_false_iff {A : Type} (f : A -> bool) (l : list A) :
  existsb f l = false <-> (forall x, In x l -> f x = false).
Proof.
  induction l as [| y l IH]; simpl.
  - split; [intros _ x [] | reflexivity].
  - rewrite orb_false_iff, IH. split.
    + intros [Hy Hl] x [<- | Hin]; auto.
    + intros Hall. split; [apply Hall; now left | intros x Hin; apply Hall; now right].
Qed.

Lemma find_existsb_false {A : Type} (f : A -> bool) (l : list A) :
  existsb f l = false -> find f l = None.
Proof.
  rewrite existsb_false_iff. apply find_none_iff.
Qed.

(** A row appended behind rows that do not match is the row a query finds. *)
Lemma find_app_last {A : Type} (f : A -> bool) (l : list A) (x : A) :
  (forall y, In y l -> f y = false) -> f x = true -> find f (l ++ [x]) = Some x.
Proof.
  induction l as [| y l IH]; intros Hall Hx; simpl.
  - now rewrite Hx.
  - rewrite (Hall y (or_introl eq_refl)). apply IH; [| exact Hx].
    intros z Hz. apply Hall. now right.
Qed.

(** Under a primary key, the row found by its key is the row itself. *)
Lemma find_by_key {A : Type} (key : A -> N) (l : list A) (x : A) (p : A -> bool) :
  NoDup (map key l) -> In x l ->
  (forall y, In y l -> p y = true -> key y = key x) -> p x = true ->
  find p l = Some x.
Proof.
  induction l as [| y l IH]; intros Hnd Hin Hkey Hx; simpl in *.
  - contradiction.
  - inversion Hnd as [| k ks Hnotin Hnd']; subst.
    destruct Hin as [-> | Hin].
    + now rewrite Hx.
    + destruct (p y) eqn:Hy.
      * exfalso. apply Hnotin.
        rewrite (Hkey y (or_introl eq_refl) Hy). now apply in_map.
      * apply IH; auto.
Qed.

(** ** Ordering of a listing *)

Lemma insert_desc_perm (x : Item.t) (l : list Item.t) :
  Permutation (insert_desc x l) (x :: l).
Proof.
  induction l as [| y l IH]; simpl.
  - apply Permutation_refl.
  - destruct (Z.leb (Item.created_at y) (Item.created_at x)).
    + apply Permutation_refl.
    + apply perm_trans with (y :: x :: l).
      * now apply perm_skip.
      * apply perm_swap.
Qed.

Lemma order_by_created_at_desc_perm (l : list Item.t) :
  Permutation (order_by_created_at_desc l) l.
Proof.
  induction l as [| x l IH]; simpl.
  - apply perm_nil.
  - apply perm_trans with (x :: order_by_created_at_desc l).
    + apply insert_desc_perm.
    + now apply perm_skip.
Qed.

Lemma insert_desc_hd (a x : Item.t) (l : list Item.t) :
  newer_or_equal a x -> HdRel newer_or_equal a l ->
  HdRel newer_or_equal a (insert_desc x l).
Proof.
  intros Hax Hal. destruct l as [| y l]; simpl.
  - now constructor.
  - destruct (Z.leb (Item.created_at y) (Item.created_at x)); constructor.
    + exact Hax.
    + now inversion Hal.
Qed.

Lemma insert_desc_sorted (x : Item.t) (l : list Item.t) :
  Sorted newer_or_equal l -> Sorted newer_or_equal (insert_desc x l).
Proof.
  induction l as [| y l IH]; intros Hs; simpl.
  - repeat constructor.
  - destruct (Z.leb (Item.created_at y) (Item.created_at x)) eqn:Hle.
    + constructor; [exact Hs |]. constructor.
      unfold newer_or_equal. now apply Z.leb_le.
    + inversion Hs as [| ? ? Hs' Hhd]; subst.
      constructor; [now apply IH |].
      apply insert_desc_hd; [| exact Hhd].
      unfold newer_or_equal. apply Z.leb_gt in Hle. lia.
Qed.

Lemma order_by_created_at_desc_sorted (l : list Item.t) :
  Sorted newer_or_equal (order_by_created_at_desc l).
Proof.
  induction l as [| x l IH]; simpl.
  - constructor.
  - now apply insert_desc_sorted.
Qed.

Lemma newer_or_equal_trans : Relations_1.Transitive newer_or_equal.
Proof.
  intros a b c Hab Hbc. unfold newer_or_equal in *. lia.
Qed.

(** C9. [list_items] returns exactly the rows of [items] whose [owner_id] is
    the given identifier, each as often as the table holds it and none of
    another owner, and the listing is in descending order of [created_at]:
    every row is at least as new as every row behind it. *)
Theorem list_items_owner_newest_first (db : Session) (owner_id : UUID) :
  (forall i, In i (list_items db owner_id) <->
             In i (items db) /\ Item.owner_id i = owner_id)
  /\ Permutation (list_items db owner_id)
                 (filter (where_item_owner owner_id) (items db))
  /\ StronglySorted newer_or_equal (list_items db owner_id).
Proof.
  unfold list_items.
  pose proof (order_by_created_at_desc_perm
                (filter (where_item_owner owner_id) (items db))) as Hperm.
  split; [| split].
  - intros i. split.
    + intros Hin. apply (Permutation_in _ Hperm) in Hin.
      apply filter_In in Hin. destruct Hin as [Hin Hown].
      split; [exact Hin | now apply N.eqb_eq].
    + intros [Hin Hown]. apply (Permutation_in _ (Permutation_sym Hperm)).
      apply filter_In. split; [exact Hin | now apply N.eqb_eq].
  - exact Hperm.
  - apply Sorted_StronglySorted.
    + exact newer_or_equal_trans.
    + apply order_by_created_at_desc_sorted.
Qed.

(** ** Owner scoping of single records *)

Lemma key_determines_row {A : Type} (key : A -> N) (l : list A) (x y : A) :
  NoDup (map key l) -> In x l -> In y l -> key x = key y -> x = y.
Proof.
  induction l as [| z l IH]; intros Hnd Hx Hy Hk; simpl in *.
  - contradiction.
  - inversion Hnd as [| k ks Hnotin Hnd']; subst.
    destruct Hx as [-> | Hx], Hy as [-> | Hy]; auto.
    + exfalso. apply Hnotin. rewrite Hk. now apply in_map.
    + exfalso. apply Hnotin. rewrite <- Hk. now apply in_map.
Qed.

(** The query of [get_item] carries both predicates: what it returns is a
    row of the table with the asked owner and the asked identifier. *)
Lemma get_item_some (db : Session) (owner_id item_id : UUID) (r : Item.t) :
  get_item db owner_id item_id = Some r ->
  In r (items db) /\ Item.owner_id r = owner_id /\ Item.id r = item_id.
Proof.
  unfold get_item. intros Hfind. apply find_some in Hfind.
  destruct Hfind as [Hin Hp]. unfold where_item_owner_and_id in Hp.
  apply andb_true_iff in Hp. destruct Hp as [Ho Hi].
  split; [exact Hin |]. split; now apply N.eqb_eq.
Qed.

Lemma get_item_foreign (db : Session) (owner_id : UUID) (item : Item.t) :
  items_pkey db -> In item (items db) -> Item.owner_id item <> owner_id ->
  get_item db owner_id (Item.id item) = None.
Proof.
  intros Hpk Hin Hown. unfold get_item. apply find_none_iff.
  intros x Hx. unfold where_item_owner_and_id.
  destruct (N.eqb (Item.owner_id x) owner_id) eqn:Ho; [| reflexivity].
  destruct (N.eqb (Item.id x) (Item.id item)) eqn:Hi; [| reflexivity].
  exfalso. apply Hown.
  apply N.eqb_eq in Ho, Hi.
  rewrite <- (key_determines_row Item.id (items db) x item Hpk Hx Hin Hi).
  exact Ho.
Qed.

Lemma get_item_missing (db : Session) (owner_id item_id : UUID) :
  (forall i, In i (items db) -> Item.id i <> item_id) ->
  get_item db owner_id item_id = None.
Proof.
  intros Hmiss. unfold get_item. apply find_none_iff.
  intros x Hx. unfold where_item_owner_and_id.
  destruct (N.eqb (Item.id x) item_id) eqn:Hi.
  - apply N.eqb_eq in Hi. now apply Hmiss in Hx.
  - apply andb_false_r.
Qed.

(** C2. Let [a] and [b] be two identities with different identifiers and
    [item] a stored record owned by [b].  Reading, updating and deleting
    [item] by its identifier on behalf of [a] each raise the 404 "Item not
    found" error and leave the store as it is; the result, and so the
    response, is the one the same call gives for an identifier [missing_id]
    that no stored record has, and it is not the 403 error.  The owner is
    part of the query: whatever [get_item] returns has the asked owner and
    the asked identifier. *)
Theorem foreign_record_is_not_found
    (db : Session) (a b : User.t) (item : Item.t) (missing_id : UUID)
    (item_in : ItemUpdate) (now : Z) :
  items_pkey db ->
  User.id a <> User.id b ->
  In item (items db) ->
  Item.owner_id item = User.id b ->
  (forall i, In i (items db) -> Item.id i <> missing_id) ->
  let not_found := HTTPException HTTP_404_NOT_FOUND "Item not found" in
  get_item_by_id (Item.id item) db a = Raise not_found
  /\ update_item_by_id (Item.id item) item_in db a now = (Raise not_found, db)
  /\ delete_item_by_id (Item.id item) db a = (Raise not_found, db)
  /\ get_item_by_id (Item.id item) db a = get_item_by_id missing_id db a
  /\ update_item_by_id (Item.id item) item_in db a now
     = update_item_by_id missing_id item_in db a now
  /\ delete_item_by_id (Item.id item) db a = delete_item_by_id missing_id db a
  /\ respond HTTP_200_OK (get_item_by_id (Item.id item) db a)
     = Failure HTTP_404_NOT_FOUND "Item not found"
  /\ respond HTTP_200_OK (get_item_by_id (Item.id item) db a)
     <> Failure HTTP_403_FORBIDDEN "Insufficient privileges"
  /\ (forall owner_id item_id r,
        get_item db owner_id item_id = Some r ->
        Item.owner_id r = owner_id /\ Item.id r = item_id).
Proof.
  intros Hpk Hab Hin Hown Hmiss not_found.
  assert (Hforeign : get_item db (User.id a) (Item.id item) = None).
  { apply get_item_foreign; auto. rewrite Hown. congruence. }
  assert (Hnone : get_item db (User.id a) missing_id = None).
  { now apply get_item_missing. }
  unfold get_item_by_id, update_item_by_id, delete_item_by_id.
  rewrite Hforeign, Hnone. simpl.
  repeat split; try reflexivity.
  - discriminate.
  - now apply get_item_some in H.
  - now apply get_item_some in H.
Qed.

Lemma foreign_record_is_not_found_witness :
  get_item_by_id (Item.id Sample.laundry) Sample.store Sample.alice
  = Raise (HTTPException HTTP_404_NOT_FOUND "Item not found")
  /\ get_item_by_id (Item.id Sample.laundry) Sample.store Sample.alice
     = get_item_by_id 99%N Sample.store Sample.alice.
Proof.
  assert (Hpk : items_pkey Sample.store).
  { unfold items_pkey. simpl. repeat constructor; simpl; intuition discriminate. }
  assert (Hmiss : forall i, In i (items Sample.store) -> Item.id i <> 99%N).
  { simpl. intros i [<- | [<- | [<- | []]]]; discriminate. }
  pose proof (foreign_record_is_not_found Sample.store Sample.alice Sample.bob
                Sample.laundry 99%N Sample.rename 0%Z Hpk
                ltac:(discriminate) ltac:(simpl; auto) eq_refl Hmiss) as Hthm.
  simpl in Hthm. destruct Hthm as (Hget & _ & _ & Hsame & _).
  split; [exact Hget | exact Hsame].
Defined.

(** ** Frame of an update *)

Lemma replace_item_ids (db : Session) (item : Item.t) :
  map Item.id (items (replace_item db item)) = map Item.id (items db).
Proof.
  unfold replace_item. simpl. rewrite map_map. apply map_ext.
  intros i. destruct (N.eqb (Item.id i) (Item.id item)) eqn:Hi.
  - symmetry. now apply N.eqb_eq.
  - reflexivity.
Qed.

Lemma replace_item_in (db : Session) (old item : Item.t) :
  In old (items db) -> Item.id old = Item.id item ->
  In item (items (replace_item db item)).
Proof.
  intros Hin Hid. unfold replace_item. simpl. apply in_map_iff.
  exists old. split; [| exact Hin].
  rewrite Hid, N.eqb_refl. reflexivity.
Qed.

Lemma replace_item_others (db : Session) (item r : Item.t) :
  In r (items db) -> Item.id r <> Item.id item ->
  In r (items (replace_item db item)).
Proof.
  intros Hin Hid. unfold replace_item. simpl. apply in_map_iff.
  exists r. split; [| exact Hin].
  apply N.eqb_neq in Hid. now rewrite Hid.
Qed.

(** C10. Let [item] be a stored record and [item'] what [update_item]
    returns for it.  Its [id], [owner_id] and [created_at] are those of
    [item]; a title or description given as [None] keeps its prior value and
    one that is given replaces it; [item'] is the row the store then holds
    under that owner and identifier; the users, the identifiers of the table
    and every other record are as before.  (The store's own [updated_at]
    column is refreshed by the commit and is not part of the statement.) *)
Theorem update_item_frame
    (db : Session) (item : Item.t) (item_in : ItemUpdate) (now : Z) :
  items_pkey db ->
  In item (items db) ->
  let item' := fst (update_item db item item_in now) in
  let db' := snd (update_item db item item_in now) in
  Item.id item' = Item.id item
  /\ Item.owner_id item' = Item.owner_id item
  /\ Item.created_at item' = Item.created_at item
  /\ (iu_title item_in = None -> Item.title item' = Item.title item)
  /\ (iu_description item_in = None -> Item.description item' = Item.description item)
  /\ (forall t, iu_title item_in = Some t -> Item.title item' = t)
  /\ (forall d, iu_description item_in = Some d -> Item.description item' = Some d)
  /\ get_item db' (Item.owner_id item) (Item.id item) = Some item'
  /\ users db' = users db
  /\ map Item.id (items db') = map Item.id (items db)
  /\ (forall r, In r (items db) -> Item.id r <> Item.id item -> In r (items db')).
Proof.
  intros Hpk Hin item' db'.
  assert (Hid : Item.id item' = Item.id item) by reflexivity.
  assert (Hdb : db' = replace_item db item') by reflexivity.
  split; [exact Hid |].
  split; [reflexivity |].
  split; [reflexivity |].
  split. { intros Ht. subst item'. simpl. now rewrite Ht. }
  split. { intros Hd. subst item'. simpl. now rewrite Hd. }
  split. { intros t Ht. subst item'. simpl. now rewrite Ht. }
  split. { intros d Hd. subst item'. simpl. now rewrite Hd. }
  split.
  { rewrite Hdb. unfold get_item.
    apply (find_by_key Item.id).
    - rewrite replace_item_ids. exact Hpk.
    - now apply replace_item_in with (old := item).
    - intros y _ Hy. unfold where_item_owner_and_id in Hy.
      apply andb_true_iff in Hy. destruct Hy as [_ Hy].
      apply N.eqb_eq in Hy. now rewrite Hy.
    - unfold where_item_owner_and_id.
      rewrite Hid. change (Item.owner_id item') with (Item.owner_id item).
      now rewrite !N.eqb_refl. }
  split; [reflexivity |].
  split. { rewrite Hdb. apply replace_item_ids. }
  intros r Hr Hne. rewrite Hdb. apply replace_item_others; [exact Hr |].
  now rewrite Hid.
Qed.

Lemma update_item_frame_witness :
  Item.owner_id (fst (update_item Sample.store Sample.groceries Sample.rename 300))
  = Sample.alice_id
  /\ Item.description (fst (update_item Sample.store Sample.groceries Sample.rename 300))
     = None.
Proof.
  assert (Hpk : items_pkey Sample.store).
  { unfold items_pkey. simpl. repeat constructor; simpl; intuition discriminate. }
  pose proof (update_item_frame Sample.store Sample.groceries Sample.rename 300 Hpk
                ltac:(simpl; auto)) as Hthm.
  simpl in Hthm. destruct Hthm as (_ & Hown & _ & _ & Hdesc & _).
  split; [exact Hown | exact (Hdesc eq_refl)].
Defined.

(** ** The primary key of [items] is kept *)

Lemma NoDup_snoc {A : Type} (l : list A) (x : A) :
  NoDup l -> ~ In x l -> NoDup (l ++ [x]).
Proof.
  intros Hnd Hnotin.
  apply Permutation_NoDup with (l := x :: l).
  - apply Permutation_cons_append.
  - now constructor.
Qed.

Lemma NoDup_map_filter {A : Type} (key : A -> N) (p : A -> bool) (l : list A) :
  NoDup (map key l) -> NoDup (map key (filter p l)).
Proof.
  induction l as [| x l IH]; intros Hnd; simpl in *.
  - constructor.
  - inversion Hnd as [| k ks Hnotin Hnd']; subst.
    destruct (p x); simpl; [| now apply IH].
    constructor; [| now apply IH].
    intros Hin. apply Hnotin. apply in_map_iff in Hin.
    destruct Hin as (y & Hy & Hiny). apply filter_In in Hiny.
    apply in_map_iff. exists y. tauto.
Qed.

Lemma create_item_preserves_pkey
    (db : Session) (owner_id : UUID) (item_in : ItemCreate) (new_id : UUID) (now : Z) :
  items_pkey db -> items_pkey (snd (create_item db owner_id item_in new_id now)).
Proof.
  intros Hpk. unfold create_item, insert_item. simpl.
  destruct (existsb (fun i => N.eqb (Item.id i) new_id) (items db)) eqn:Hid;
    [exact Hpk |].
  destruct (negb (existsb (where_user_id owner_id) (users db))); [exact Hpk |].
  unfold items_pkey. simpl. rewrite map_app. simpl.
  apply NoDup_snoc; [exact Hpk |].
  intros Hin. apply in_map_iff in Hin. destruct Hin as (i & Hi & Hini).
  rewrite existsb_false_iff in Hid. specialize (Hid i Hini).
  apply N.eqb_neq in Hid. contradiction.
Qed.

Lemma update_item_preserves_pkey
    (db : Session) (item : Item.t) (item_in : ItemUpdate) (now : Z) :
  items_pkey db -> items_pkey (snd (update_item db item item_in now)).
Proof.
  intros Hpk. unfold update_item, items_pkey. simpl snd.
  now rewrite replace_item_ids.
Qed.

Lemma delete_item_preserves_pkey (db : Session) (item : Item.t) :
  items_pkey db -> items_pkey (delete_item db item).
Proof.
  intros Hpk. unfold delete_item, remove_item, items_pkey. simpl.
  now apply NoDup_map_filter.
Qed.

(** After its owner deleted it, a record is gone for every caller. *)
Lemma delete_item_removes (db : Session) (item : Item.t) (owner_id : UUID) :
  get_item (delete_item db item) owner_id (Item.id item) = None.
Proof.
  unfold get_item, delete_item, remove_item. simpl. apply find_none_iff.
  intros x Hx. apply filter_In in Hx. destruct Hx as [_ Hne].
  unfold where_item_owner_and_id.
  destruct (N.eqb (Item.id x) (Item.id item)); [discriminate |].
  apply andb_false_r.
Qed.

(** ** The authorization gate *)

Lemma get_current_active_user_ok (current_user user : User.t) :
  get_current_active_user current_user = Ok user <->
  User.is_active current_user = true /\ user = current_user.
Proof.
  unfold get_current_active_user.
  destruct (User.is_active current_user); simpl; split.
  - intros Hok. injection Hok as <-. now split.
  - intros [_ ->]. reflexivity.
  - discriminate.
  - intros [Habs _]. discriminate.
Qed.

(** The gate for elevated operations reads [is_superuser] and nothing else. *)
Lemma get_current_active_superuser_ok (current_user user : User.t) :
  get_current_active_superuser current_user = Ok user <->
  User.is_superuser current_user = true /\ user = current_user.
Proof.
  unfold get_current_active_superuser.
  destruct (User.is_superuser current_user); simpl; split.
  - intros Hok. injection Hok as <-. now split.
  - intros [_ ->]. reflexivity.
  - discriminate.
  - intros [Habs _]. discriminate.
Qed.

(** ** Resolving a bearer token *)

Section Resolution.
Context `{Platform}.

Lemma get_current_user_token_data (now : Z) (token : string) (db : Session) :
  get_current_user now token db =
  match token_data_of now token with
  | Raise (JWTError _) => Raise credentials_error
  | Raise exc => Raise exc
  | Ok token_data =>
      match sub token_data with
      | None | Some "" => Raise credentials_error
      | Some s =>
          user_id <- UUID_of_str s;;
          match get_user db user_id with
          | None => Raise (HTTPException HTTP_401_UNAUTHORIZED "User not found")
          | Some user => Ok user
          end
      end
  end.
Proof. reflexivity. Qed.

Lemma get_user_none (db : Session) (user_id : UUID) :
  get_user db user_id = None <->
  (forall u, In u (users db) -> User.id u <> user_id).
Proof.
  unfold get_user. rewrite find_none_iff. unfold where_user_id.
  split; intros Hall u Hin; specialize (Hall u Hin).
  - now apply N.eqb_neq.
  - now apply N.eqb_neq.
Qed.

Lemma get_user_some (db : Session) (user_id : UUID) (u : User.t) :
  get_user db user_id = Some u -> In u (users db) /\ User.id u = user_id.
Proof.
  unfold get_user. intros Hfind. apply find_some in Hfind.
  destruct Hfind as [Hin Hid]. split; [exact Hin | now apply N.eqb_eq].
Qed.

(** An identity that resolution returns is a stored one, with the subject
    of the token as its identifier. *)
Lemma get_current_user_ok (now : Z) (token : string) (db : Session) (user : User.t) :
  get_current_user now token db = Ok user ->
  exists token_data s,
    token_data_of now token = Ok token_data /\ sub token_data = Some s
    /\ UUID_of_str s = Ok (User.id user) /\ In user (users db).
Proof.
  rewrite get_current_user_token_data.
  destruct (token_data_of now token) as [token_data | e] eqn:Htd.
  - destruct (sub token_data) as [s |] eqn:Hsub; [| discriminate].
    destruct s as [| c s]; [discriminate |].
    destruct (UUID_of_str (String c s)) as [user_id | e] eqn:Hid; simpl; [| discriminate].
    destruct (get_user db user_id) as [u |] eqn:Hu; [| discriminate].
    intros Hok. injection Hok as <-.
    apply get_user_some in Hu. destruct Hu as [Hin <-].
    exists token_data, (String c s). auto.
  - destruct e; discriminate.
Qed.

(** C1. Let the token decode, under the configured key and at the time of
    the request, into a payload whose subject is the text of an identifier
    [user_id], and let the store hold no identity with that identifier.  Then
    [get_current_user] raises a 401 error and returns no identity, and so
    does the chain that [GET /auth/me] depends on; the detail is "User not
    found" unless the subject is the empty string. *)
Theorem resolution_fails_without_identity
    (now : Z) (token : string) (db : Session)
    (payload : dict) (token_data : TokenPayload) (s : string) (user_id : UUID) :
  jwt_decode now token (secret_key get_settings) [algorithm get_settings] = Ok payload ->
  TokenPayload_of_dict payload = Ok token_data ->
  sub token_data = Some s ->
  UUID_of_str s = Ok user_id ->
  (forall u, In u (users db) -> User.id u <> user_id) ->
  exists detail,
    get_current_user now token db = Raise (HTTPException HTTP_401_UNAUTHORIZED detail)
    /\ (forall user, get_current_user now token db <> Ok user)
    /\ respond HTTP_200_OK (Depends_get_current_active_user now token db)
       = Failure HTTP_401_UNAUTHORIZED detail
    /\ (s <> "" -> detail = "User not found").
Proof.
  intros Hdecode Hpayload Hsub Hid Habsent.
  apply get_user_none in Habsent.
  assert (Htd : token_data_of now token = Ok token_data).
  { unfold token_data_of. rewrite Hdecode. exact Hpayload. }
  unfold Depends_get_current_active_user.
  rewrite get_current_user_token_data, Htd, Hsub.
  destruct s as [| c s].
  - exists "Could not validate credentials". unfold credentials_error. simpl.
    repeat split; try discriminate. intros Hne. now elim Hne.
  - rewrite Hid. simpl. rewrite Habsent.
    exists "User not found". simpl. repeat split; discriminate.
Qed.

(** C4, as the code has it.  When the [try] block ends in a [JWTError]
    (the token is malformed, wrongly signed or expired), and when it yields a
    payload without a subject or with the empty subject, [get_current_user]
    raises the 401 error with the detail "Could not validate credentials".
    When the subject is the text of an identifier that no stored identity
    has, it raises a 401 error whose detail is "User not found". *)
Theorem resolution_failure_details (now : Z) (token : string) (db : Session) :
  (forall msg,
      token_data_of now token = Raise (JWTError msg) ->
      get_current_user now token db = Raise credentials_error)
  /\ (forall token_data,
        token_data_of now token = Ok token_data ->
        sub token_data = None \/ sub token_data = Some "" ->
        get_current_user now token db = Raise credentials_error)
  /\ (forall token_data s user_id,
        token_data_of now token = Ok token_data ->
        sub token_data = Some s -> s <> "" ->
        UUID_of_str s = Ok user_id ->
        (forall u, In u (users db) -> User.id u <> user_id) ->
        get_current_user now token db
        = Raise (HTTPException HTTP_401_UNAUTHORIZED "User not found")).
Proof.
  split; [| split].
  - intros msg Htd. now rewrite get_current_user_token_data, Htd.
  - intros token_data Htd [Hsub | Hsub];
      now rewrite get_current_user_token_data, Htd, Hsub.
  - intros token_data s user_id Htd Hsub Hne Hid Habsent.
    apply get_user_none in Habsent.
    rewrite get_current_user_token_data, Htd, Hsub.
    destruct s as [| c s]; [now elim Hne |].
    rewrite Hid. simpl. now rewrite Habsent.
Qed.

(** A subject that [uuid.UUID] rejects: the exception of the conversion is
    the result of the resolution. *)
Lemma get_current_user_bad_subject
    (now : Z) (token : string) (db : Session) (token_data : TokenPayload)
    (s : string) (e : exn) :
  token_data_of now token = Ok token_data ->
  sub token_data = Some s -> s <> "" ->
  UUID_of_str s = Raise e ->
  get_current_user now token db = Raise e.
Proof.
  intros Htd Hsub Hne Hid.
  rewrite get_current_user_token_data, Htd, Hsub.
  destruct s as [| c s]; [now elim Hne |].
  now rewrite Hid.
Qed.

End Resolution.

(** ** Registration and login *)

Section Credentials.
Context `{Platform}.

Lemma get_user_by_email_none (db : Session) (email : string) :
  get_user_by_email db email = None <->
  (forall u, In u (users db) -> User.email u <> str_lower email).
Proof.
  unfold get_user_by_email. rewrite find_none_iff. unfold where_user_email.
  split; intros Hall u Hin; specialize (Hall u Hin).
  - now apply String.eqb_neq.
  - now apply String.eqb_neq.
Qed.

Lemma get_user_by_email_some (db : Session) (email : string) (u : User.t) :
  get_user_by_email db email = Some u ->
  In u (users db) /\ User.email u = str_lower email.
Proof.
  unfold get_user_by_email. intros Hfind. apply find_some in Hfind.
  destruct Hfind as [Hin He]. split; [exact Hin | now apply String.eqb_eq].
Qed.

(** [authenticate_user] lowers the email before the lookup lowers it again. *)
Lemma get_user_by_email_lower (db : Session) (email : string) :
  lower_stable email ->
  get_user_by_email db (str_lower email) = get_user_by_email db email.
Proof.
  intros Hstable. unfold get_user_by_email. now rewrite Hstable.
Qed.

(** What a successful [create_user] has done. *)
Lemma create_user_ok
    (db db' : Session) (user_in : UserCreate) (is_superuser : bool)
    (new_id : UUID) (salt : string) (now : Z) (user : User.t) :
  create_user db user_in is_superuser new_id salt now = (Ok user, db') ->
  User.id user = new_id
  /\ User.email user = str_lower (uc_email user_in)
  /\ User.hashed_password user = get_password_hash salt (uc_password user_in)
  /\ User.is_active user = true
  /\ User.is_superuser user = is_superuser
  /\ (forall u, In u (users db) -> User.id u <> new_id)
  /\ (forall u, In u (users db) -> User.email u <> str_lower (uc_email user_in))
  /\ users db' = users db ++ [user]
  /\ items db' = items db.
Proof.
  unfold create_user, insert_user. simpl.
  destruct (existsb (where_user_id new_id) (users db)) eqn:Hid; [discriminate |].
  destruct (existsb (where_user_email (str_lower (uc_email user_in))) (users db))
    eqn:Hemail; [discriminate |].
  intros Heq. injection Heq as <- <-. simpl.
  rewrite existsb_false_iff in Hid, Hemail.
  repeat split; try reflexivity.
  - intros u Hin. apply N.eqb_neq. exact (Hid u Hin).
  - intros u Hin. apply String.eqb_neq. exact (Hemail u Hin).
Qed.

(** C6. Let [email1] match no stored user, and let [email2] be the email of
    the stored user [u] while the password [password2] fails the
    verification against the hash of [u].  Then [authenticate_user] returns
    [None] for both, and [login] raises for both the same exception, the 401
    error with the detail "Incorrect email or password": the two results and
    the two responses are equal. *)
Theorem authentication_failures_coincide
    (db : Session) (email1 password1 email2 password2 : string) (u : User.t)
    (now1 now2 : Z) :
  lower_stable email1 -> lower_stable email2 ->
  get_user_by_email db email1 = None ->
  get_user_by_email db email2 = Some u ->
  verify_password password2 (User.hashed_password u) = false ->
  authenticate_user db email1 password1 = None
  /\ authenticate_user db email2 password2 = None
  /\ login {| lr_email := email1; lr_password := password1 |} db now1
     = Raise (HTTPException HTTP_401_UNAUTHORIZED "Incorrect email or password")
  /\ login {| lr_email := email2; lr_password := password2 |} db now2
     = login {| lr_email := email1; lr_password := password1 |} db now1
  /\ respond HTTP_200_OK (login {| lr_email := email2; lr_password := password2 |} db now2)
     = respond HTTP_200_OK (login {| lr_email := email1; lr_password := password1 |} db now1).
Proof.
  intros Hs1 Hs2 Hnone Hsome Hverify.
  assert (Ha1 : authenticate_user db email1 password1 = None).
  { unfold authenticate_user. now rewrite (get_user_by_email_lower db email1 Hs1), Hnone. }
  assert (Ha2 : authenticate_user db email2 password2 = None).
  { unfold authenticate_user.
    now rewrite (get_user_by_email_lower db email2 Hs2), Hsome, Hverify. }
  unfold login. simpl. rewrite Ha1, Ha2. repeat split; reflexivity.
Qed.

(** C7. Let [create_user] accept [user_in] and store [user].  Then, for
    every spelling [email'] that differs from the registered email in letter
    case only, [authenticate_user] on the new store with [email'] and the
    registered password returns [user], and the email of [user] equals the
    registered one up to letter case.  The hasher is assumed to verify the
    password against the digest it has just made of it. *)
Theorem registration_then_authentication
    (db db' : Session) (user_in : UserCreate) (is_superuser : bool)
    (new_id : UUID) (salt : string) (now : Z) (user : User.t) (email' : string) :
  lower_stable (uc_email user_in) ->
  verify_password (uc_password user_in)
                  (get_password_hash salt (uc_password user_in)) = true ->
  create_user db user_in is_superuser new_id salt now = (Ok user, db') ->
  same_email email' (uc_email user_in) ->
  authenticate_user db' email' (uc_password user_in) = Some user
  /\ same_email (User.email user) (uc_email user_in).
Proof.
  intros Hstable Hverify Hcreate Hcase.
  apply create_user_ok in Hcreate.
  destruct Hcreate as (_ & Hemail & Hhash & _ & _ & _ & Hunique & Husers & _).
  unfold same_email in *. split.
  - unfold authenticate_user, get_user_by_email.
    rewrite Hcase, Hstable, Husers.
    rewrite (find_app_last _ (users db) user).
    + now rewrite Hhash, Hverify.
    + intros y Hy. unfold where_user_email. apply String.eqb_neq. now apply Hunique.
    + unfold where_user_email. rewrite Hemail. apply String.eqb_refl.
  - rewrite Hemail. exact Hstable.
Qed.

(** C8. Let every stored email be in lower case and let the drawn
    identifier be new.  If a stored user has the submitted email up to letter
    case, [register_user] answers 400 "Email already registered" and the
    store is unchanged.  Otherwise it answers 201 with a new identity whose
    email is the submitted email in lower case, and that identity is the one
    row added to [users]. *)
Theorem registration_normalizes_and_rejects_duplicates
    (db : Session) (user_in : UserCreate) (new_id : UUID) (salt : string) (now : Z) :
  emails_normalized db ->
  (forall u, In u (users db) -> User.id u <> new_id) ->
  let r := fst (register_user user_in db new_id salt now) in
  let db' := snd (register_user user_in db new_id salt now) in
  ((exists u, In u (users db) /\ same_email (User.email u) (uc_email user_in)) ->
   respond HTTP_201_CREATED r
   = Failure HTTP_400_BAD_REQUEST "Email already registered"
   /\ db' = db)
  /\ ((forall u, In u (users db) -> ~ same_email (User.email u) (uc_email user_in)) ->
      exists user,
        respond HTTP_201_CREATED r = Success HTTP_201_CREATED user
        /\ User.email user = str_lower (uc_email user_in)
        /\ User.id user = new_id
        /\ users db' = users db ++ [user]
        /\ items db' = items db).
Proof.
  intros Hnorm Hfresh r db'. subst r db'. unfold register_user. split.
  - intros (u & Hin & Hsame). unfold same_email in Hsame.
    rewrite (Hnorm u Hin) in Hsame.
    destruct (get_user_by_email db (uc_email user_in)) as [existing |] eqn:Hlookup.
    + simpl. split; reflexivity.
    + exfalso. rewrite get_user_by_email_none in Hlookup.
      exact (Hlookup u Hin Hsame).
  - intros Hnew.
    assert (Hlookup : get_user_by_email db (uc_email user_in) = None).
    { apply get_user_by_email_none. intros u Hin Heq.
      apply (Hnew u Hin). unfold same_email. rewrite (Hnorm u Hin). exact Heq. }
    rewrite Hlookup. unfold create_user, insert_user. simpl.
    assert (Hid : existsb (where_user_id new_id) (users db) = false).
    { apply existsb_false_iff. intros u Hin. apply N.eqb_neq. now apply Hfresh. }
    assert (Hemail : existsb (where_user_email (str_lower (uc_email user_in))) (users db)
                     = false).
    { apply existsb_false_iff. intros u Hin. apply String.eqb_neq.
      rewrite get_user_by_email_none in Hlookup. now apply Hlookup. }
    rewrite Hid, Hemail. simpl. eexists. repeat split; reflexivity.
Qed.

(** Registration keeps the invariants it relies on. *)
Lemma register_user_preserves
    (db : Session) (user_in : UserCreate) (new_id : UUID) (salt : string) (now : Z) :
  lower_stable (uc_email user_in) ->
  emails_normalized db -> users_pkey db ->
  emails_normalized (snd (register_user user_in db new_id salt now))
  /\ users_pkey (snd (register_user user_in db new_id salt now)).
Proof.
  intros Hstable Hnorm Hpk. unfold register_user.
  destruct (get_user_by_email db (uc_email user_in)); [now split |].
  destruct (create_user db user_in false new_id salt now) as [[user | e] db'] eqn:Hc.
  - apply create_user_ok in Hc.
    destruct Hc as (Hid & Hemail & _ & _ & _ & Hfresh & _ & Husers & _).
    simpl. split.
    + intros u Hin. rewrite Husers in Hin. apply in_app_or in Hin.
      destruct Hin as [Hin | [<- | []]]; [now apply Hnorm |].
      rewrite Hemail. exact Hstable.
    + unfold users_pkey. rewrite Husers, map_app. simpl.
      apply NoDup_app_remove_l with (l := []). simpl.
      apply Permutation_NoDup with (l := User.id user :: map User.id (users db)).
      * apply Permutation_cons_append.
      * constructor; [| exact Hpk].
        intros Hin. apply in_map_iff in Hin. destruct Hin as (u & Hu & Hinu).
        apply (Hfresh u Hinu). congruence.
  - unfold create_user in Hc. destruct (insert_user db _); [discriminate |].
    injection Hc as _ <-. simpl. now split.
Qed.

End Credentials.

(* ================================================================== *)
(** * The handlers on the reference platform *)

Section Scenarios.
Import Sample.
Local Abbreviation P := Reference.platform.

(** End to end: register, log in, resolve the token before and after its
    expiry. *)
Example register_login_resolve :
  let '(r, db1) := @register_user P dave_in store 77%N "zz" 600 in
  exists dave,
    r = Ok dave
    /\ User.email dave = "dave@example.com"
    /\ exists t,
        @login P {| lr_email := "dave@example.com"; lr_password := "pw12345678" |} db1 1000
        = Ok t
        /\ expires_in t = 1800%Z
        /\ @Depends_get_current_active_user P 1500 (access_token t) db1 = Ok dave
        /\ @Depends_get_current_active_user P 3000 (access_token t) db1
           = Raise credentials_error.
Proof.
  vm_compute. eexists. split; [reflexivity |]. split; [reflexivity |].
  eexists. repeat split.
Qed.

Example listing_is_scoped :
  list_my_items store alice = [taxes; groceries]
  /\ list_my_items store bob = [laundry].
Proof. split; reflexivity. Qed.

(** C3. The gate for elevated operations, [get_current_active_superuser],
    depends on [get_current_user] and tests [is_superuser] only.  An inactive
    superuser is admitted, and an inactive user without the privilege is
    turned away with 403 "Insufficient privileges", while the active check
    answers 400 "Inactive user" for the same token. *)
Theorem superuser_gate_skips_active_check :
  User.is_active dormant_admin = false
  /\ @Depends_get_current_active_superuser P 1500 carol_token store_with_dormant
     = Ok dormant_admin
  /\ User.is_active dormant_user = false
  /\ User.is_superuser dormant_user = false
  /\ @Depends_get_current_active_superuser P 1500 bob_token store_with_dormant
     = Raise (HTTPException HTTP_403_FORBIDDEN "Insufficient privileges")
  /\ @Depends_get_current_active_user P 1500 bob_token store_with_dormant
     = Raise (HTTPException HTTP_400_BAD_REQUEST "Inactive user").
Proof. repeat split; vm_compute; reflexivity. Qed.

(** C4 as stated does not hold: for a token whose subject was deleted
    the detail of the error is "User not found", not the generic one. *)
Lemma unknown_subject_detail_is_specific :
  @get_current_user P 1500 bob_token store_without_bob
  = Raise (HTTPException HTTP_401_UNAUTHORIZED "User not found")
  /\ @get_current_user P 1500 bob_token store_without_bob <> Raise credentials_error.
Proof. split; [vm_compute; reflexivity | vm_compute; discriminate]. Qed.

(** C5. A token under the configured key whose subject is the text
    [not-a-uuid]: the conversion to an identifier raises [ValueError], no
    handler catches it, and the client receives 500, not 401. *)
Theorem malformed_subject_is_not_handled :
  @token_data_of P 1500 odd_token
  = Ok {| sub := Some "not-a-uuid"; exp := Some 2800%Z |}
  /\ @get_current_user P 1500 odd_token store
     = Raise (ValueError "badly formed hexadecimal UUID string")
  /\ respond HTTP_200_OK (@Depends_get_current_active_user P 1500 odd_token store)
     = Failure HTTP_500_INTERNAL_SERVER_ERROR "Internal Server Error".
Proof. repeat split; vm_compute; reflexivity. Qed.

End Scenarios.

(** ** The general statements at sample inputs *)

Section Instances.
Import Sample.
Local Abbreviation P := Reference.platform.

(** On the reference platform [str_lower] is stable on every string. *)
Lemma reference_lower_stable (s : string) : @lower_stable P s.
Proof.
  unfold lower_stable. simpl.
  induction s as [| c s IH]; simpl.
  - reflexivity.
  - rewrite IH. f_equal.
    destruct c as [[] [] [] [] [] [] [] []]; reflexivity.
Qed.

Lemma resolution_fails_without_identity_witness :
  exists detail,
    @get_current_user P 1500 bob_token store_without_bob
    = Raise (HTTPException HTTP_401_UNAUTHORIZED detail)
    /\ detail = "User not found".
Proof.
  destruct (@resolution_fails_without_identity P 1500 bob_token store_without_bob
              {| sub := Some (Reference.str_of_UUID bob_id); exp := Some 2800%Z |}
              {| sub := Some (Reference.str_of_UUID bob_id); exp := Some 2800%Z |}
              (Reference.str_of_UUID bob_id) bob_id
              eq_refl eq_refl eq_refl eq_refl
              ltac:(simpl; intros u [<- | []]; discriminate))
    as (detail & Hraise & _ & _ & Hdetail).
  exists detail. split; [exact Hraise |].
  apply Hdetail. discriminate.
Defined.

Lemma resolution_failure_details_witness :
  @get_current_user P 3000 bob_token store = Raise credentials_error
  /\ @get_current_user P 1500 bob_token store_without_bob
     = Raise (HTTPException HTTP_401_UNAUTHORIZED "User not found").
Proof.
  destruct (@resolution_failure_details P 3000 bob_token store) as (Hcodec & _ & _).
  destruct (@resolution_failure_details P 1500 bob_token store_without_bob)
    as (_ & _ & Hunknown).
  split.
  - apply (Hcodec "Signature has expired."). reflexivity.
  - apply (Hunknown
             {| sub := Some (Reference.str_of_UUID bob_id); exp := Some 2800%Z |}
             (Reference.str_of_UUID bob_id) bob_id);
      try reflexivity; try discriminate.
    simpl. intros u [<- | []]. discriminate.
Defined.

Lemma authentication_failures_coincide_witness :
  @authenticate_user P store "nobody@example.com" "pw12345678" = None
  /\ @authenticate_user P store "Alice@Example.com" "pw12345679" = None.
Proof.
  destruct (@authentication_failures_coincide P store
              "nobody@example.com" "pw12345678" "Alice@Example.com" "pw12345679"
              alice 1000 1001 eq_refl eq_refl eq_refl eq_refl eq_refl)
    as (H1 & H2 & _).
  split; [exact H1 | exact H2].
Defined.

Lemma registration_then_authentication_witness :
  exists dave,
    @authenticate_user P (snd (@create_user P store dave_in false 77%N "zz" 600))
      "DAVE@example.com" "pw12345678" = Some dave
    /\ User.email dave = "dave@example.com".
Proof.
  eexists. split.
  - apply (@registration_then_authentication P store _ dave_in false 77%N "zz" 600 _
             "DAVE@example.com" eq_refl eq_refl eq_refl eq_refl).
  - reflexivity.
Defined.

Lemma registration_normalizes_and_rejects_duplicates_witness :
  (exists user,
      respond HTTP_201_CREATED (fst (@register_user P dave_in store 77%N "zz" 600))
      = Success HTTP_201_CREATED user
      /\ User.email user = "dave@example.com")
  /\ respond HTTP_201_CREATED
       (fst (@register_user P
               {| uc_email := "ALICE@example.com"; uc_full_name := None;
                  uc_password := "another password" |} store 78%N "zz" 601))
     = Failure HTTP_400_BAD_REQUEST "Email already registered".
Proof.
  assert (Hnorm : @emails_normalized P store).
  { intros u [<- | [<- | []]]; reflexivity. }
  split.
  - destruct (@registration_normalizes_and_rejects_duplicates P store dave_in 77%N
                "zz" 600 Hnorm
                ltac:(intros u [<- | [<- | []]]; discriminate)) as (_ & Hnew).
    destruct Hnew as (user & Hresp & Hemail & _).
    + intros u [<- | [<- | []]]; vm_compute; discriminate.
    + exists user. split; [exact Hresp | exact Hemail].
  - destruct (@registration_normalizes_and_rejects_duplicates P store
                {| uc_email := "ALICE@example.com"; uc_full_name := None;
                   uc_password := "another password" |} 78%N
                "zz" 601 Hnorm
                ltac:(intros u [<- | [<- | []]]; discriminate)) as (Hdup & _).
    apply Hdup. exists alice. split; [simpl; auto | reflexivity].
Defined.

End Instances.

(* ================================================================== *)
(** * Further properties of the handlers *)

(** ** Queries under a key *)

Lemma unique_by_key {A K : Type} (key : A -> K) (l : list A) (x y : A) :
  NoDup (map key l) -> In x l -> In y l -> key x = key y -> x = y.
Proof.
  induction l as [| z l IH]; intros Hnd Hx Hy Hk; simpl in *.
  - contradiction.
  - inversion Hnd as [| k ks Hnotin Hnd']; subst.
    destruct Hx as [-> | Hx], Hy as [-> | Hy]; auto.
    + exfalso. apply Hnotin. rewrite Hk. now apply in_map.
    + exfalso. apply Hnotin. rewrite <- Hk. now apply in_map.
Qed.

Lemma find_unique {A : Type} (p : A -> bool) (l : list A) (x : A) :
  In x l -> p x = true -> (forall y, In y l -> p y = true -> y = x) ->
  find p l = Some x.
Proof.
  intros Hin Hx Honly.
  destruct (find p l) as [y |] eqn:Hfind.
  - apply find_some in Hfind. destruct Hfind as [Hy Hpy].
    now rewrite (Honly y Hy Hpy).
  - rewrite find_none_iff in Hfind. rewrite (Hfind x Hin) in Hx. discriminate.
Qed.

Lemma list_items_in (db : Session) (owner_id : UUID) (i : Item.t) :
  In i (list_items db owner_id) <-> In i (items db) /\ Item.owner_id i = owner_id.
Proof.
  unfold list_items.
  pose proof (order_by_created_at_desc_perm
                (filter (where_item_owner owner_id) (items db))) as Hperm.
  unfold where_item_owner in *. split.
  - intros Hin. apply (Permutation_in _ Hperm) in Hin.
    apply filter_In in Hin. now rewrite N.eqb_eq in Hin.
  - intros Hin. apply (Permutation_in _ (Permutation_sym Hperm)).
    apply filter_In. now rewrite N.eqb_eq.
Qed.

Lemma get_item_own (db : Session) (item : Item.t) :
  items_pkey db -> In item (items db) ->
  get_item db (Item.owner_id item) (Item.id item) = Some item.
Proof.
  intros Hpk Hin. unfold get_item. apply find_unique.
  - exact Hin.
  - unfold where_item_owner_and_id. now rewrite !N.eqb_refl.
  - intros y Hy Hp. unfold where_item_owner_and_id in Hp.
    apply andb_true_iff in Hp. destruct Hp as [_ Hid]. apply N.eqb_eq in Hid.
    exact (unique_by_key Item.id (items db) y item Hpk Hy Hin Hid).
Qed.

(** ** The owner's own records *)

(** The positive side of owner scoping: under the primary key, the owner of
    a stored record reads exactly that record by its identifier. *)
Theorem own_record_is_found (db : Session) (a : User.t) (item : Item.t) :
  items_pkey db -> In item (items db) -> Item.owner_id item = User.id a ->
  get_item_by_id (Item.id item) db a = Ok item
  /\ respond HTTP_200_OK (get_item_by_id (Item.id item) db a)
     = Success HTTP_200_OK item.
Proof.
  intros Hpk Hin Hown. unfold get_item_by_id.
  rewrite <- Hown, (get_item_own db item Hpk Hin). split; reflexivity.
Qed.

Lemma own_record_is_found_witness :
  get_item_by_id 8%N Sample.store Sample.bob = Ok Sample.laundry.
Proof.
  apply (own_record_is_found Sample.store Sample.bob Sample.laundry).
  - unfold items_pkey. simpl. repeat constructor; simpl; intuition discriminate.
  - simpl. auto.
  - reflexivity.
Defined.

(** A record created through [POST /items] with a new identifier, on behalf
    of a stored user, belongs to that user: the handler succeeds, the new row
    carries the caller's identifier as [owner_id] and the submitted title and
    description, it is the one row added to the table, the caller reads it
    back by its identifier and finds it in the listing. *)
Theorem created_item_belongs_to_caller
    (item_in : ItemCreate) (db : Session) (current_user : User.t)
    (new_id : UUID) (now : Z) :
  In current_user (users db) ->
  (forall i, In i (items db) -> Item.id i <> new_id) ->
  exists item,
    create_item_for_user item_in db current_user new_id now
    = (Ok item, {| users := users db; items := items db ++ [item] |})
    /\ Item.id item = new_id
    /\ Item.owner_id item = User.id current_user
    /\ Item.title item = ic_title item_in
    /\ Item.description item = ic_description item_in
    /\ get_item_by_id new_id
         (snd (create_item_for_user item_in db current_user new_id now)) current_user
       = Ok item
    /\ In item (list_my_items
                  (snd (create_item_for_user item_in db current_user new_id now))
                  current_user).
Proof.
  intros Hstored Hfresh.
  unfold create_item_for_user, create_item, insert_item. simpl.
  assert (Hid : existsb (fun i => N.eqb (Item.id i) new_id) (items db) = false).
  { apply existsb_false_iff. intros i Hi. apply N.eqb_neq. now apply Hfresh. }
  assert (Hfk : existsb (where_user_id (User.id current_user)) (users db) = true).
  { apply existsb_exists. exists current_user. split; [exact Hstored |].
    unfold where_user_id. apply N.eqb_refl. }
  rewrite Hid, Hfk. simpl. eexists. split; [reflexivity |].
  repeat split; try reflexivity.
  - unfold get_item_by_id, get_item. simpl.
    rewrite find_app_last; [reflexivity | |].
    + intros y Hy. unfold where_item_owner_and_id.
      specialize (Hfresh y Hy). apply N.eqb_neq in Hfresh.
      rewrite Hfresh. apply andb_false_r.
    + unfold where_item_owner_and_id. simpl. now rewrite !N.eqb_refl.
  - unfold list_my_items. apply list_items_in. simpl. split; [| reflexivity].
    apply in_or_app. right. now left.
Qed.

Lemma created_item_belongs_to_caller_witness :
  exists item,
    fst (create_item_for_user {| ic_title := "post"; ic_description := None |}
           Sample.store Sample.bob 10%N 300) = Ok item
    /\ Item.owner_id item = Sample.bob_id.
Proof.
  destruct (created_item_belongs_to_caller
              {| ic_title := "post"; ic_description := None |}
              Sample.store Sample.bob 10%N 300
              ltac:(simpl; auto)
              ltac:(simpl; intros i [<- | [<- | [<- | []]]]; discriminate))
    as (item & Hcreate & _ & Hown & _).
  exists item. split; [now rewrite Hcreate | exact Hown].
Defined.

(** [PUT /items/{item_id}] by the owner of a stored record: the handler
    succeeds with the updated record, the record keeps its owner, the owner
    reads the updated record back, and every caller with another identifier
    still receives 404 for it. *)
Theorem owner_update_is_visible
    (db : Session) (a : User.t) (item : Item.t) (item_in : ItemUpdate) (now : Z) :
  items_pkey db -> In item (items db) -> Item.owner_id item = User.id a ->
  exists item',
    fst (update_item_by_id (Item.id item) item_in db a now) = Ok item'
    /\ Item.id item' = Item.id item
    /\ Item.owner_id item' = User.id a
    /\ get_item_by_id (Item.id item)
         (snd (update_item_by_id (Item.id item) item_in db a now)) a = Ok item'
    /\ (forall b : User.t,
          User.id b <> User.id a ->
          get_item_by_id (Item.id item)
            (snd (update_item_by_id (Item.id item) item_in db a now)) b
          = Raise (HTTPException HTTP_404_NOT_FOUND "Item not found")).
Proof.
  intros Hpk Hin Hown. unfold update_item_by_id.
  rewrite <- Hown, (get_item_own db item Hpk Hin).
  destruct (update_item db item item_in now) as [item' db'] eqn:Hupd.
  unfold update_item in Hupd. injection Hupd as Hitem' Hdb'.
  assert (Hid : Item.id item' = Item.id item) by now subst item'.
  assert (Howner : Item.owner_id item' = Item.owner_id item) by now subst item'.
  rewrite Hitem' in Hdb'.
  assert (Hpk' : items_pkey db').
  { unfold items_pkey. rewrite <- Hdb', replace_item_ids. exact Hpk. }
  assert (Hin' : In item' (items db')).
  { rewrite <- Hdb'. now apply replace_item_in with (old := item). }
  exists item'. simpl. repeat split; auto.
  - unfold get_item_by_id.
    rewrite <- Hid, <- Hown, <- Howner, (get_item_own db' item' Hpk' Hin').
    reflexivity.
  - intros b Hb. unfold get_item_by_id.
    rewrite <- Hid, (get_item_foreign db' (User.id b) item' Hpk' Hin'); [reflexivity |].
    rewrite Howner, Hown. congruence.
Qed.

Lemma owner_update_is_visible_witness :
  exists item',
    fst (update_item_by_id 7%N Sample.rename Sample.store Sample.alice 300) = Ok item'
    /\ Item.owner_id item' = Sample.alice_id.
Proof.
  destruct (owner_update_is_visible Sample.store Sample.alice Sample.groceries
              Sample.rename 300) as (item' & Hupd & _ & Hown & _).
  - unfold items_pkey. simpl. repeat constructor; simpl; intuition discriminate.
  - simpl. auto.
  - reflexivity.
  - exists item'. split; [exact Hupd | exact Hown].
Defined.

(** [DELETE /items/{item_id}] by the owner of a stored record: the handler
    succeeds with 204, the record is gone for every caller, the other
    records and the users are as before. *)
Theorem owner_delete_removes_record (db : Session) (a : User.t) (item : Item.t) :
  items_pkey db -> In item (items db) -> Item.owner_id item = User.id a ->
  let db' := snd (delete_item_by_id (Item.id item) db a) in
  respond HTTP_204_NO_CONTENT (fst (delete_item_by_id (Item.id item) db a))
  = Success HTTP_204_NO_CONTENT tt
  /\ (forall c : User.t,
        get_item_by_id (Item.id item) db' c
        = Raise (HTTPException HTTP_404_NOT_FOUND "Item not found"))
  /\ (forall r, In r (items db') <-> In r (items db) /\ Item.id r <> Item.id item)
  /\ users db' = users db.
Proof.
  intros Hpk Hin Hown db'. subst db'. unfold delete_item_by_id.
  rewrite <- Hown, (get_item_own db item Hpk Hin). simpl.
  split; [reflexivity |]. split; [| split; [| reflexivity]].
  - intros c. unfold get_item_by_id. now rewrite delete_item_removes.
  - intros r. rewrite filter_In. rewrite negb_true_iff, N.eqb_neq. tauto.
Qed.

Lemma owner_delete_removes_record_witness :
  get_item_by_id 9%N (snd (delete_item_by_id 9%N Sample.store Sample.alice)) Sample.alice
  = Raise (HTTPException HTTP_404_NOT_FOUND "Item not found").
Proof.
  destruct (owner_delete_removes_record Sample.store Sample.alice Sample.taxes)
    as (_ & Hgone & _).
  - unfold items_pkey. simpl. repeat constructor; simpl; intuition discriminate.
  - simpl. auto.
  - reflexivity.
  - exact (Hgone Sample.alice).
Defined.

Lemma option_eqb_refl (a : option string) : option_eqb a a = true.
Proof. destruct a; simpl; [apply String.eqb_refl | reflexivity]. Qed.

Lemma replace_item_same (db : Session) (item : Item.t) :
  items_pkey db -> In item (items db) -> replace_item db item = db.
Proof.
  intros Hpk Hin. destruct db as [us its]. unfold replace_item. simpl in *.
  f_equal. rewrite <- (map_id its) at 2. apply map_ext_in.
  intros x Hx. destruct (N.eqb (Item.id x) (Item.id item)) eqn:Hid; [| reflexivity].
  apply N.eqb_eq in Hid. symmetry.
  exact (unique_by_key Item.id its x item Hpk Hx Hin Hid).
Qed.

(** [PUT /items/{item_id}] with a body that sets neither field, by the owner
    of a stored record: the handler returns the record as it is, and the
    store, the column [updated_at] included, is unchanged. *)
Theorem empty_update_changes_nothing
    (db : Session) (a : User.t) (item : Item.t) (now : Z) :
  items_pkey db -> In item (items db) -> Item.owner_id item = User.id a ->
  update_item_by_id (Item.id item) empty_item_update db a now = (Ok item, db).
Proof.
  intros Hpk Hin Hown. unfold update_item_by_id.
  rewrite <- Hown, (get_item_own db item Hpk Hin).
  unfold update_item, empty_item_update. simpl.
  rewrite String.eqb_refl, option_eqb_refl. simpl.
  assert (Heta : {| Item.id := Item.id item;
                    Item.title := Item.title item;
                    Item.description := Item.description item;
                    Item.owner_id := Item.owner_id item;
                    Item.created_at := Item.created_at item;
                    Item.updated_at := Item.updated_at item |} = item).
  { now destruct item. }
  rewrite Heta. now rewrite (replace_item_same db item Hpk Hin).
Qed.

Lemma empty_update_changes_nothing_witness :
  update_item_by_id 8%N empty_item_update Sample.store Sample.bob 900
  = (Ok Sample.laundry, Sample.store).
Proof.
  apply (empty_update_changes_nothing Sample.store Sample.bob Sample.laundry 900).
  - unfold items_pkey. simpl. repeat constructor; simpl; intuition discriminate.
  - simpl. auto.
  - reflexivity.
Defined.

(** ** Isolation of the listings *)

Lemma filter_owner_replace (owner_id : UUID) (item' : Item.t) (l : list Item.t) :
  Item.owner_id item' <> owner_id ->
  (forall x, In x l -> Item.id x = Item.id item' -> Item.owner_id x <> owner_id) ->
  filter (where_item_owner owner_id)
         (map (fun i => if N.eqb (Item.id i) (Item.id item') then item' else i) l)
  = filter (where_item_owner owner_id) l.
Proof.
  intros Hnew. induction l as [| x l IH]; intros Hold; simpl.
  - reflexivity.
  - rewrite IH by (intros y Hy; apply Hold; now right).
    destruct (N.eqb (Item.id x) (Item.id item')) eqn:Hid; [| reflexivity].
    apply N.eqb_eq in Hid.
    pose proof (Hold x (or_introl eq_refl) Hid) as Hx.
    unfold where_item_owner.
    apply N.eqb_neq in Hnew, Hx. now rewrite Hnew, Hx.
Qed.

Lemma filter_owner_remove (owner_id : UUID) (item : Item.t) (l : list Item.t) :
  (forall x, In x l -> Item.id x = Item.id item -> Item.owner_id x <> owner_id) ->
  filter (where_item_owner owner_id)
         (filter (fun i => negb (N.eqb (Item.id i) (Item.id item))) l)
  = filter (where_item_owner owner_id) l.
Proof.
  induction l as [| x l IH]; intros Hold; simpl.
  - reflexivity.
  - specialize (IH (fun y Hy => Hold y (or_intror Hy))).
    destruct (N.eqb (Item.id x) (Item.id item)) eqn:Hid; simpl.
    + apply N.eqb_eq in Hid.
      pose proof (Hold x (or_introl eq_refl) Hid) as Hx.
      unfold where_item_owner at 2. apply N.eqb_neq in Hx. now rewrite Hx.
    + now rewrite IH.
Qed.

(** Whatever one caller creates, updates or deletes through the three
    mutating handlers of [/items], with any identifiers and bodies, the
    listing of a caller with another identifier is the same before and
    after. *)
Theorem mutations_do_not_touch_other_listings
    (db : Session) (a b : User.t) (item_id new_id : UUID)
    (item_new : ItemCreate) (item_in : ItemUpdate) (now : Z) :
  items_pkey db ->
  User.id a <> User.id b ->
  list_my_items (snd (create_item_for_user item_new db a new_id now)) b
  = list_my_items db b
  /\ list_my_items (snd (update_item_by_id item_id item_in db a now)) b
     = list_my_items db b
  /\ list_my_items (snd (delete_item_by_id item_id db a)) b
     = list_my_items db b.
Proof.
  intros Hpk Hab. unfold list_my_items, list_items. split; [| split].
  - unfold create_item_for_user, create_item, insert_item. simpl.
    destruct (existsb _ (items db)); [reflexivity |].
    destruct (negb _); [reflexivity |]. simpl.
    rewrite filter_app. simpl. unfold where_item_owner at 2. simpl.
    apply N.eqb_neq in Hab. now rewrite Hab, app_nil_r.
  - unfold update_item_by_id.
    destruct (get_item db (User.id a) item_id) as [r |] eqn:Hget; [| reflexivity].
    apply get_item_some in Hget. destruct Hget as (Hr & Hown & _).
    unfold update_item. cbv zeta. cbn [snd]. unfold replace_item. cbn [items].
    rewrite filter_owner_replace; [reflexivity | |]; simpl.
    + congruence.
    + intros x Hx Hid.
      rewrite (unique_by_key Item.id (items db) x r Hpk Hx Hr Hid). congruence.
  - unfold delete_item_by_id.
    destruct (get_item db (User.id a) item_id) as [r |] eqn:Hget; [| reflexivity].
    apply get_item_some in Hget. destruct Hget as (Hr & Hown & _).
    unfold delete_item, remove_item. simpl.
    rewrite filter_owner_remove; [reflexivity |].
    intros x Hx Hid.
    rewrite (unique_by_key Item.id (items db) x r Hpk Hx Hr Hid). congruence.
Qed.

Lemma mutations_do_not_touch_other_listings_witness :
  list_my_items (snd (delete_item_by_id 7%N Sample.store Sample.alice)) Sample.bob
  = [Sample.laundry].
Proof.
  destruct (mutations_do_not_touch_other_listings Sample.store Sample.alice Sample.bob
              7%N 10%N {| ic_title := "post"; ic_description := None |}
              Sample.rename 300) as (_ & _ & Hdel).
  - unfold items_pkey. simpl. repeat constructor; simpl; intuition discriminate.
  - discriminate.
  - exact Hdel.
Defined.

(** ** The constraints of [items] are kept *)

(** The three mutating handlers of [/items] keep the primary key and the
    foreign key of the table, whether they succeed or raise. *)
Theorem item_handlers_keep_constraints
    (db : Session) (current_user : User.t) (item_id new_id : UUID)
    (item_new : ItemCreate) (item_in : ItemUpdate) (now : Z) :
  items_pkey db -> items_fkey db ->
  (items_pkey (snd (create_item_for_user item_new db current_user new_id now))
   /\ items_fkey (snd (create_item_for_user item_new db current_user new_id now)))
  /\ (items_pkey (snd (update_item_by_id item_id item_in db current_user now))
      /\ items_fkey (snd (update_item_by_id item_id item_in db current_user now)))
  /\ (items_pkey (snd (delete_item_by_id item_id db current_user))
      /\ items_fkey (snd (delete_item_by_id item_id db current_user))).
Proof.
  intros Hpk Hfk. split; [| split].
  - split; [apply create_item_preserves_pkey; exact Hpk |].
    unfold create_item_for_user, create_item, insert_item. simpl.
    destruct (existsb _ (items db)); [exact Hfk |].
    destruct (existsb (where_user_id (User.id current_user)) (users db)) eqn:Hu;
      simpl; [| exact Hfk].
    intros i Hi. simpl in Hi. apply in_app_or in Hi.
    destruct Hi as [Hi | [<- | []]]; [now apply Hfk |]. simpl.
    apply existsb_exists in Hu. destruct Hu as (u & Hin & Hid).
    exists u. split; [exact Hin | now apply N.eqb_eq].
  - unfold update_item_by_id.
    destruct (get_item db (User.id current_user) item_id) as [r |] eqn:Hget;
      [| now split].
    apply get_item_some in Hget. destruct Hget as (Hr & _ & _).
    destruct (update_item db r item_in now) as [item' db'] eqn:Hupd. simpl.
    split.
    + change db' with (snd (item', db')). rewrite <- Hupd.
      now apply update_item_preserves_pkey.
    + unfold update_item in Hupd. injection Hupd as Hitem' <-.
      intros i Hi. simpl in Hi. apply in_map_iff in Hi.
      destruct Hi as (x & Hx & Hxin).
      destruct (N.eqb (Item.id x) (Item.id r)); subst i; simpl; now apply Hfk.
  - unfold delete_item_by_id.
    destruct (get_item db (User.id current_user) item_id) as [r |]; [| now split].
    simpl. split; [now apply delete_item_preserves_pkey |].
    intros i Hi. simpl in Hi. apply filter_In in Hi. now apply Hfk.
Qed.

Lemma item_handlers_keep_constraints_witness :
  items_pkey (snd (create_item_for_user {| ic_title := "post"; ic_description := None |}
                     Sample.store Sample.bob 10%N 300)).
Proof.
  destruct (item_handlers_keep_constraints Sample.store Sample.bob 7%N 10%N
              {| ic_title := "post"; ic_description := None |} Sample.rename 300)
    as ((Hpk & _) & _).
  - unfold items_pkey. simpl. repeat constructor; simpl; intuition discriminate.
  - intros i [<- | [<- | [<- | []]]]; simpl; eauto.
  - exact Hpk.
Defined.

(** ** Identities: resolution, login, registration, password change *)

Section Identities.
Context `{Platform}.

(** Whatever identity the dependency of the protected routes returns is a
    stored user that is active, and its identifier is the one written in the
    subject of the token, which is not empty. *)
Theorem active_dependency_returns_stored_active_user
    (now : Z) (token : string) (db : Session) (user : User.t) :
  Depends_get_current_active_user now token db = Ok user ->
  In user (users db)
  /\ User.is_active user = true
  /\ exists token_data s,
       token_data_of now token = Ok token_data
       /\ sub token_data = Some s /\ s <> ""
       /\ UUID_of_str s = Ok (User.id user).
Proof.
  unfold Depends_get_current_active_user.
  rewrite get_current_user_token_data.
  destruct (token_data_of now token) as [token_data | e] eqn:Htd;
    [| destruct e; discriminate].
  destruct (sub token_data) as [s |] eqn:Hsub; [| discriminate].
  destruct s as [| c s]; [discriminate |].
  destruct (UUID_of_str (String c s)) as [user_id | e] eqn:Hid; simpl; [| discriminate].
  destruct (get_user db user_id) as [u |] eqn:Hu; simpl; [| discriminate].
  unfold get_current_active_user.
  destruct (User.is_active u) eqn:Hactive; simpl; [| discriminate].
  intros Hok. injection Hok as <-.
  apply get_user_some in Hu. destruct Hu as [Hin <-].
  split; [exact Hin |]. split; [exact Hactive |].
  exists token_data, (String c s). repeat split; auto. discriminate.
Qed.

(** [authenticate_user] returns only a stored user whose email is the
    submitted one in lower case and whose stored hash verifies the submitted
    password. *)
Theorem authenticate_user_sound
    (db : Session) (email password : string) (user : User.t) :
  authenticate_user db email password = Some user ->
  In user (users db)
  /\ User.email user = str_lower (str_lower email)
  /\ verify_password password (User.hashed_password user) = true.
Proof.
  unfold authenticate_user.
  destruct (get_user_by_email db (str_lower email)) as [u |] eqn:Hlookup;
    [| discriminate].
  destruct (verify_password password (User.hashed_password u)) eqn:Hverify;
    simpl; [| discriminate].
  intros Hsome. injection Hsome as <-.
  apply get_user_by_email_some in Hlookup. destruct Hlookup as [Hin Hemail].
  auto.
Qed.

(** The letter case of the submitted email plays no part in a login: two
    spellings with the same lower-case form give the same result. *)
Theorem login_ignores_letter_case
    (db : Session) (email1 email2 password : string) (now : Z) :
  same_email email1 email2 ->
  authenticate_user db email1 password = authenticate_user db email2 password
  /\ login {| lr_email := email1; lr_password := password |} db now
     = login {| lr_email := email2; lr_password := password |} db now.
Proof.
  intros Hsame. unfold same_email in Hsame.
  assert (Hauth : authenticate_user db email1 password
                  = authenticate_user db email2 password).
  { unfold authenticate_user. now rewrite Hsame. }
  split; [exact Hauth |]. unfold login. simpl. now rewrite Hauth.
Qed.


(** A successful registration stores an active user without the superuser
    privilege, under the drawn identifier and the lowered email; the user is
    then found by its identifier and by its email in any letter case, the
    users stored before are still stored and the records are untouched. *)
Theorem registered_user_is_found
    (user_in : UserCreate) (db db' : Session) (new_id : UUID) (salt : string) (now : Z)
    (user : User.t) :
  register_user user_in db new_id salt now = (Ok user, db') ->
  User.is_active user = true
  /\ User.is_superuser user = false
  /\ User.id user = new_id
  /\ User.email user = str_lower (uc_email user_in)
  /\ get_user db' new_id = Some user
  /\ (forall email', same_email email' (uc_email user_in) ->
                     get_user_by_email db' email' = Some user)
  /\ (forall u, In u (users db) -> In u (users db'))
  /\ items db' = items db.
Proof.
  unfold register_user.
  destruct (get_user_by_email db (uc_email user_in)); [discriminate |].
  intros Hcreate. apply create_user_ok in Hcreate.
  destruct Hcreate as (Hid & Hemail & _ & Hactive & Hsuper & Hfresh & Hunique
                       & Husers & Hitems).
  repeat split; auto.
  - unfold get_user. rewrite Husers. apply find_app_last.
    + intros y Hy. unfold where_user_id. apply N.eqb_neq. now apply Hfresh.
    + unfold where_user_id. rewrite Hid. apply N.eqb_refl.
  - intros email' Hsame. unfold same_email in Hsame.
    unfold get_user_by_email. rewrite Husers, Hsame. apply find_app_last.
    + intros y Hy. unfold where_user_email. apply String.eqb_neq. now apply Hunique.
    + unfold where_user_email. rewrite Hemail. apply String.eqb_refl.
  - intros u Hu. rewrite Husers. apply in_or_app. now left.
Qed.

(** After a successful registration, a second registration with the same
    email in any letter case is answered with 400 "Email already registered"
    and leaves the store as the first one made it. *)
Theorem second_registration_is_rejected
    (user_in other : UserCreate) (db db' : Session) (user : User.t)
    (new_id new_id' : UUID) (salt salt' : string) (now now' : Z) :
  register_user user_in db new_id salt now = (Ok user, db') ->
  same_email (uc_email other) (uc_email user_in) ->
  register_user other db' new_id' salt' now'
  = (Raise (HTTPException HTTP_400_BAD_REQUEST "Email already registered"), db').
Proof.
  intros Hfirst Hsame. unfold same_email in Hsame.
  assert (Hfound : get_user_by_email db' (uc_email other) <> None).
  { unfold register_user in Hfirst.
    destruct (get_user_by_email db (uc_email user_in)); [discriminate |].
    apply create_user_ok in Hfirst.
    destruct Hfirst as (_ & Hemail & _ & _ & _ & _ & _ & Husers & _).
    rewrite get_user_by_email_none. intros Hnone.
    apply (Hnone user).
    - rewrite Husers. apply in_or_app. right. now left.
    - now rewrite Hsame. }
  unfold register_user.
  destruct (get_user_by_email db' (uc_email other)); [reflexivity | now elim Hfound].
Qed.

(** Registration keeps the constraints of the store, whether it succeeds or
    raises: stored emails stay in lower case, the primary key and the unique
    email index of [users] and the foreign key of [items] stay valid. *)
Theorem register_user_keeps_constraints
    (user_in : UserCreate) (db : Session) (new_id : UUID) (salt : string) (now : Z) :
  lower_stable (uc_email user_in) ->
  emails_normalized db -> users_pkey db -> users_email_unique db -> items_fkey db ->
  let db' := snd (register_user user_in db new_id salt now) in
  emails_normalized db' /\ users_pkey db' /\ users_email_unique db' /\ items_fkey db'.
Proof.
  intros Hstable Hnorm Hpk Huniq Hfk db'. subst db'.
  destruct (register_user_preserves db user_in new_id salt now Hstable Hnorm Hpk)
    as [Hnorm' Hpk'].
  split; [exact Hnorm' |]. split; [exact Hpk' |].
  unfold register_user.
  destruct (get_user_by_email db (uc_email user_in)); [now split |].
  destruct (create_user db user_in false new_id salt now) as [[user | e] db1] eqn:Hc.
  - apply create_user_ok in Hc.
    destruct Hc as (_ & Hemail & _ & _ & _ & _ & Hunique & Husers & Hitems).
    simpl. split.
    + unfold users_email_unique. rewrite Husers, map_app. simpl.
      apply NoDup_snoc; [exact Huniq |].
      intros Hin. apply in_map_iff in Hin. destruct Hin as (u & Hu & Hinu).
      apply (Hunique u Hinu). congruence.
    + intros i Hi. rewrite Hitems in Hi. destruct (Hfk i Hi) as (u & Hu & Hown).
      exists u. split; [| exact Hown]. rewrite Husers. apply in_or_app. now left.
  - unfold create_user in Hc. destruct (insert_user db _); [discriminate |].
    injection Hc as _ <-. simpl. now split.
Qed.

(** A password change through [update_user] takes effect: the stored user
    then authenticates with the new password, under the same email, and
    keeps its identifier, email, flags and creation time; the records and the
    identifiers of the users are as before.  The hasher is assumed to verify
    the new password against the digest it has just made of it. *)
Theorem password_change_then_authentication
    (db : Session) (user : User.t) (user_in : UserUpdate) (salt : string) (now : Z)
    (email new_password : string) :
  users_email_unique db ->
  In user (users db) ->
  lower_stable email ->
  User.email user = str_lower email ->
  uu_password user_in = Some new_password ->
  verify_password new_password (get_password_hash salt new_password) = true ->
  let user' := fst (update_user db user user_in salt now) in
  let db' := snd (update_user db user user_in salt now) in
  authenticate_user db' email new_password = Some user'
  /\ User.hashed_password user' = get_password_hash salt new_password
  /\ User.id user' = User.id user
  /\ User.email user' = User.email user
  /\ User.is_active user' = User.is_active user
  /\ User.is_superuser user' = User.is_superuser user
  /\ User.created_at user' = User.created_at user
  /\ map User.id (users db') = map User.id (users db)
  /\ items db' = items db.
Proof.
  intros Huniq Hin Hstable Hemail Hpw Hverify user' db'.
  assert (Hhash : User.hashed_password user' = get_password_hash salt new_password).
  { subst user'. unfold update_user. simpl. now rewrite Hpw. }
  assert (Hid : User.id user' = User.id user) by reflexivity.
  assert (Hmail : User.email user' = User.email user) by reflexivity.
  assert (Hdb : db' = replace_user db user') by reflexivity.
  assert (Hflags : User.is_active user' = User.is_active user
                   /\ User.is_superuser user' = User.is_superuser user
                   /\ User.created_at user' = User.created_at user)
    by (repeat split; reflexivity).
  destruct Hflags as (Hactive & Hsuper & Hcreated).
  clearbody user' db'. subst db'.
  split; [| repeat split; auto].
  - unfold authenticate_user, get_user_by_email.
    rewrite Hstable, <- Hemail. unfold replace_user. cbn [users].
    rewrite (find_unique _ _ user').
    + now rewrite Hhash, Hverify.
    + apply in_map_iff. exists user. split; [| exact Hin].
      now rewrite Hid, N.eqb_refl.
    + unfold where_user_email. rewrite Hmail. apply String.eqb_refl.
    + intros y Hy Hp. apply in_map_iff in Hy. destruct Hy as (r & Hr & Hrin).
      destruct (N.eqb (User.id r) (User.id user')) eqn:Hrid; [now symmetry |].
      subst y. unfold where_user_email in Hp. apply String.eqb_eq in Hp.
      rewrite (unique_by_key User.email (users db) r user Huniq Hrin Hin Hp) in Hrid.
      rewrite Hid, N.eqb_refl in Hrid. discriminate.
  - unfold replace_user. cbn [users]. rewrite map_map. apply map_ext.
    intros u. destruct (N.eqb (User.id u) (User.id user')) eqn:Hu; [| reflexivity].
    apply N.eqb_eq in Hu. congruence.
Qed.

End Identities.

(** ** The further statements at sample inputs *)

Section FurtherInstances.
Import Sample.
Local Abbreviation P := Reference.platform.

Lemma sample_users_pkey : users_pkey store.
Proof.
  unfold users_pkey. simpl. repeat constructor; simpl; intuition discriminate.
Qed.

Lemma sample_users_email_unique : users_email_unique store.
Proof.
  unfold users_email_unique. simpl. repeat constructor; simpl; intuition discriminate.
Qed.

Lemma sample_items_fkey : items_fkey store.
Proof.
  intros i [<- | [<- | [<- | []]]]; simpl; eauto.
Qed.

Lemma active_dependency_returns_stored_active_user_witness :
  In alice (users store) /\ User.is_active alice = true.
Proof.
  destruct (@active_dependency_returns_stored_active_user P 1500
              (Reference.create_access_token 1000 (Reference.str_of_UUID alice_id) 1800)
              store alice eq_refl) as (Hin & Hactive & _).
  split; [exact Hin | exact Hactive].
Defined.

Lemma authenticate_user_sound_witness :
  In alice (users store)
  /\ Reference.verify_password "pw12345678" (User.hashed_password alice) = true.
Proof.
  destruct (@authenticate_user_sound P store "Alice@Example.com" "pw12345678" alice
              eq_refl) as (Hin & _ & Hverify).
  split; [exact Hin | exact Hverify].
Defined.

Lemma login_ignores_letter_case_witness :
  @authenticate_user P store "ALICE@example.com" "pw12345678"
  = @authenticate_user P store "alice@Example.COM" "pw12345678".
Proof.
  exact (proj1 (@login_ignores_letter_case P store "ALICE@example.com"
                  "alice@Example.COM" "pw12345678" 1000 eq_refl)).
Defined.


Lemma registered_user_is_found_witness :
  exists dave,
    @get_user_by_email P (snd (@register_user P dave_in store 77%N "zz" 600))
      "DAVE@EXAMPLE.COM" = Some dave
    /\ User.is_superuser dave = false.
Proof.
  destruct (@registered_user_is_found P dave_in store _ 77%N "zz" 600 _ eq_refl)
    as (_ & Hsuper & _ & _ & _ & Hemail & _).
  eexists. split; [exact (Hemail "DAVE@EXAMPLE.COM" eq_refl) | exact Hsuper].
Defined.

Lemma second_registration_is_rejected_witness :
  fst (@register_user P
         {| uc_email := "dave@EXAMPLE.com"; uc_full_name := Some "Dave";
            uc_password := "something else" |}
         (snd (@register_user P dave_in store 77%N "zz" 600)) 78%N "yy" 601)
  = Raise (HTTPException HTTP_400_BAD_REQUEST "Email already registered").
Proof.
  exact (f_equal fst
           (@second_registration_is_rejected P dave_in
              {| uc_email := "dave@EXAMPLE.com"; uc_full_name := Some "Dave";
                 uc_password := "something else" |}
              store _ _ 77%N 78%N "zz" "yy" 600 601 eq_refl eq_refl)).
Defined.

Lemma register_user_keeps_constraints_witness :
  users_email_unique (snd (@register_user P dave_in store 77%N "zz" 600)).
Proof.
  destruct (@register_user_keeps_constraints P dave_in store 77%N "zz" 600 eq_refl)
    as (_ & _ & Hunique & _).
  - intros u [<- | [<- | []]]; reflexivity.
  - exact sample_users_pkey.
  - exact sample_users_email_unique.
  - exact sample_items_fkey.
  - exact Hunique.
Defined.

Lemma password_change_then_authentication_witness :
  @authenticate_user P
    (snd (@update_user P store bob
            {| uu_full_name := None; uu_password := Some "a new password" |} "s2" 700))
    "Bob@Example.com" "a new password"
  = Some (fst (@update_user P store bob
                 {| uu_full_name := None; uu_password := Some "a new password" |}
                 "s2" 700)).
Proof.
  destruct (@password_change_then_authentication P store bob
              {| uu_full_name := None; uu_password := Some "a new password" |}
              "s2" 700 "Bob@Example.com" "a new password"
              sample_users_email_unique ltac:(simpl; auto)
              eq_refl eq_refl eq_refl eq_refl) as (Hauth & _).
  exact Hauth.
Defined.

End FurtherInstances.

(** ** Authentication of a stored user, and updates of a user *)

Section StoredUsers.
Context `{Platform}.

(** Under the unique email index, a stored user whose email is the
    submitted one in lower case is the user the lookup finds: the login
    attempt succeeds with that user exactly when the stored hash verifies the
    submitted password, and returns nothing otherwise. *)
Theorem authenticate_user_complete
    (db : Session) (user : User.t) (email password : string) :
  users_email_unique db ->
  In user (users db) ->
  lower_stable email ->
  User.email user = str_lower email ->
  authenticate_user db email password
  = if verify_password password (User.hashed_password user) then Some user else None.
Proof.
  intros Huniq Hin Hstable Hemail.
  unfold authenticate_user, get_user_by_email. rewrite Hstable, <- Hemail.
  rewrite (find_unique _ _ user).
  - now destruct (verify_password password (User.hashed_password user)).
  - exact Hin.
  - unfold where_user_email. apply String.eqb_refl.
  - intros y Hy Hp. unfold where_user_email in Hp. apply String.eqb_eq in Hp.
    exact (unique_by_key User.email (users db) y user Huniq Hy Hin Hp).
Qed.

(** [update_user] on a stored user keeps the constraints of the store: the
    identifiers and the emails of the table are as before, so the primary
    key, the unique email index, the lower case of the emails and the
    foreign key of [items] stay valid. *)
Theorem update_user_keeps_constraints
    (db : Session) (user : User.t) (user_in : UserUpdate) (salt : string) (now : Z) :
  In user (users db) ->
  emails_normalized db -> users_pkey db -> users_email_unique db -> items_fkey db ->
  let db' := snd (update_user db user user_in salt now) in
  map User.id (users db') = map User.id (users db)
  /\ map User.email (users db') = map User.email (users db)
  /\ emails_normalized db' /\ users_pkey db' /\ users_email_unique db'
  /\ items_fkey db'.
Proof.
  intros Hin Hnorm Hpk Huniq Hfk db'.
  set (user' := fst (update_user db user user_in salt now)).
  assert (Hid : User.id user' = User.id user) by reflexivity.
  assert (Hmail : User.email user' = User.email user) by reflexivity.
  assert (Hdb : db' = replace_user db user') by reflexivity.
  clearbody user' db'. subst db'. unfold replace_user. cbn [users items].
  assert (Hids : map User.id
                   (map (fun u => if N.eqb (User.id u) (User.id user') then user' else u)
                        (users db))
                 = map User.id (users db)).
  { rewrite map_map. apply map_ext. intros u.
    destruct (N.eqb (User.id u) (User.id user')) eqn:Hu; [| reflexivity].
    apply N.eqb_eq in Hu. congruence. }
  assert (Hmails : map User.email
                     (map (fun u => if N.eqb (User.id u) (User.id user') then user' else u)
                          (users db))
                   = map User.email (users db)).
  { rewrite map_map. apply map_ext_in. intros u Hu.
    destruct (N.eqb (User.id u) (User.id user')) eqn:Hidu; [| reflexivity].
    apply N.eqb_eq in Hidu. rewrite Hid in Hidu.
    rewrite (unique_by_key User.id (users db) u user Hpk Hu Hin Hidu). exact Hmail. }
  split; [exact Hids |]. split; [exact Hmails |].
  split; [| split; [| split]].
  - intros u Hu. cbn [users] in Hu. apply in_map_iff in Hu.
    destruct Hu as (r & Hr & Hrin).
    destruct (N.eqb (User.id r) (User.id user')); subst u.
    + rewrite Hmail. now apply Hnorm.
    + now apply Hnorm.
  - unfold users_pkey. cbn [users]. now rewrite Hids.
  - unfold users_email_unique. cbn [users]. now rewrite Hmails.
  - intros i Hi. cbn [items] in Hi. destruct (Hfk i Hi) as (u & Hu & Hown).
    cbn [users].
    assert (Hinid : In (Item.owner_id i)
                       (map User.id
                          (map (fun u => if N.eqb (User.id u) (User.id user')
                                         then user' else u) (users db)))).
    { rewrite Hids, <- Hown. now apply in_map. }
    apply in_map_iff in Hinid. destruct Hinid as (v & Hv & Hvin).
    exists v. split; [exact Hvin | exact Hv].
Qed.

End StoredUsers.

Section StoredUsersInstances.
Import Sample.
Local Abbreviation P := Reference.platform.

Lemma authenticate_user_complete_witness :
  @authenticate_user P store "BOB@example.com" "hunter2hunter2" = Some bob
  /\ @authenticate_user P store "BOB@example.com" "hunter3hunter3" = None.
Proof.
  split.
  - exact (@authenticate_user_complete P store bob "BOB@example.com" "hunter2hunter2"
             sample_users_email_unique ltac:(simpl; auto) eq_refl eq_refl).
  - exact (@authenticate_user_complete P store bob "BOB@example.com" "hunter3hunter3"
             sample_users_email_unique ltac:(simpl; auto) eq_refl eq_refl).
Defined.

Lemma update_user_keeps_constraints_witness :
  users_pkey (snd (@update_user P store alice
                     {| uu_full_name := Some "Alice L."; uu_password := None |}
                     "s3" 800)).
Proof.
  destruct (@update_user_keeps_constraints P store alice
              {| uu_full_name := Some "Alice L."; uu_password := None |} "s3" 800
              ltac:(simpl; auto)) as (_ & _ & _ & Hpk & _).
  - intros u [<- | [<- | []]]; reflexivity.
  - exact sample_users_pkey.
  - exact sample_users_email_unique.
  - exact sample_items_fkey.
  - exact Hpk.
Defined.

End StoredUsersInstances.
